(** * Fix Augment: a shallow embedding of the text-integrity services

    The development follows the TypeScript sources:
    - [src/constants/index.ts]          (VALIDATION_LIMITS, LANGUAGE_PATTERNS),
    - [src/services/ValidationService.ts],
    - [src/services/FormattingService.ts],
    - [src/services/ContextService.ts],
    - [types] (ITextChunk, IChunkingService, OutputFormat, StatusType).

    JavaScript strings are sequences of UTF-16 code units; they are modelled
    as lists of code units.  Integer-valued numbers inside the safe-integer
    range (string lengths, counters, epoch timestamps) are modelled by [nat]
    or [Z]; the fractional products of the source ([threshold * 0.7],
    [matches.length * 0.2]) are computed in IEEE-754 binary64 with the
    standard library's [SpecFloat]. *)

From Stdlib Require Import String Ascii.
From Stdlib Require Import List Arith ZArith NArith Lia Bool.
From Stdlib Require Import QArith Qround.
From Stdlib Require Import DecimalString.
From Stdlib Require Import SpecFloat.
From Equations Require Import Equations.
Import ListNotations.
Close Scope Q_scope.

Set Implicit Arguments.

(* ===================================================================== *)
(** * JavaScript strings *)
(* ===================================================================== *)

Module JS.

(** A UTF-16 code unit. *)
Definition char := N.

(** A string value: its [length] is the [length] of the list. *)
Definition jsstring := list char.

(** Embedding of an ASCII literal. *)
Definition str (s : string) : jsstring :=
  List.map N_of_ascii (list_ascii_of_string s).

Definition chr (a : ascii) : char := N_of_ascii a.

(** Code units that cannot be written inside a literal here. *)
Definition dquote : char := 34%N.
Definition backslash : char := 92%N.
Definition newline : char := 10%N.

(** [`${n}`] for a non-negative integer [n]. *)
Definition showNat (n : nat) : jsstring :=
  str (NilEmpty.string_of_uint (Nat.to_uint n)).

(** [`${z}`] for an integer [z]. *)
Definition showZ (z : Z) : jsstring :=
  match z with
  | Zneg p => chr "-" :: showNat (Pos.to_nat p)
  | _ => showNat (Z.to_nat z)
  end.

(** [!text] on a value of type string: only the empty string is falsy. *)
Definition falsy (s : jsstring) : bool :=
  match s with [] => true | _ => false end.

(** WhiteSpace and LineTerminator code units: the set of [\s] and of
    [String.prototype.trim]. *)
Definition isLineTerminator (c : char) : bool :=
  (c =? 10)%N || (c =? 13)%N || (c =? 8232)%N || (c =? 8233)%N.

Definition isWhiteSpace (c : char) : bool :=
  (c =? 9)%N || (c =? 11)%N || (c =? 12)%N || (c =? 32)%N || (c =? 160)%N
  || (c =? 5760)%N || ((8192 <=? c)%N && (c <=? 8202)%N)
  || (c =? 8239)%N || (c =? 8287)%N || (c =? 12288)%N || (c =? 65279)%N.

Definition isSpace (c : char) : bool := isWhiteSpace c || isLineTerminator c.

Fixpoint trimStart (s : jsstring) : jsstring :=
  match s with
  | c :: rest => if isSpace c then trimStart rest else s
  | [] => []
  end.

Definition trimEnd (s : jsstring) : jsstring := rev (trimStart (rev s)).

(** [s.trim()]. *)
Definition trim (s : jsstring) : jsstring := trimEnd (trimStart s).

(** [s.includes(t)]. *)
Fixpoint startsWith (t s : jsstring) : bool :=
  match t, s with
  | [], _ => true
  | x :: t', y :: s' => (x =? y)%N && startsWith t' s'
  | _ :: _, [] => false
  end.

Fixpoint includes (s t : jsstring) : bool :=
  startsWith t s || match s with [] => false | _ :: s' => includes s' t end.

(** [s.replace(/c/g, repl)] for a one-character pattern and a replacement
    text without [$]: every occurrence of [c] is replaced, left to right. *)
Definition replaceChar (c : char) (repl : jsstring) (s : jsstring) : jsstring :=
  flat_map (fun x => if (x =? c)%N then repl else [x]) s.

End JS.

Import JS.

(* ===================================================================== *)
(** * Regular expressions of the JavaScript runtime *)
(* ===================================================================== *)

(** The fragment used by the patterns of the repository: literals, classes,
    sequence, alternation, greedy star, capture groups, the assertions [^]
    and [$], and a one-character negative lookbehind.  The matcher is the
    backtracking matcher of the language definition, in continuation-passing
    style. *)
Module RegExp.

Inductive regex : Type :=
| Eps
| Chr (c : char)
| Cls (p : char -> bool)
| Seq (r1 r2 : regex)
| Alt (r1 r2 : regex)
| Star (r : regex)
| Group (r : regex)
| Bol
| Eol
| NotBehind (p : char -> bool).

Record t : Type := mk {
  source : regex;
  global : bool;
  ignoreCase : bool;
  multiline : bool
}.

(** A position in the input: the code units before it (nearest first) and
    the code units after it. *)
Definition cursor : Type := (jsstring * jsstring)%type.

Definition index (c : cursor) : nat := length (fst c).

(** Canonicalize of the [i] flag, on the ASCII letters of the patterns. *)
Definition upper (c : char) : char :=
  if ((97 <=? c) && (c <=? 122))%N then (c - 32)%N else c.

Definition sameChar (ic : bool) (x y : char) : bool :=
  if ic then (upper x =? upper y)%N else (x =? y)%N.

Definition atLineStart (ml : bool) (c : cursor) : bool :=
  match fst c with
  | [] => true
  | y :: _ => ml && isLineTerminator y
  end.

Definition atLineEnd (ml : bool) (c : cursor) : bool :=
  match snd c with
  | [] => true
  | y :: _ => ml && isLineTerminator y
  end.

Section Matcher.
Variable A : Type.
Variables ic ml : bool.

Fixpoint matchK (r : regex) (c : cursor) (k : cursor -> option A)
  {struct r} : option A :=
  match r with
  | Eps => k c
  | Chr x =>
      match snd c with
      | y :: rest => if sameChar ic x y then k (y :: fst c, rest) else None
      | [] => None
      end
  | Cls p =>
      match snd c with
      | y :: rest => if p y then k (y :: fst c, rest) else None
      | [] => None
      end
  | Seq r1 r2 => matchK r1 c (fun c' => matchK r2 c' k)
  | Alt r1 r2 =>
      match matchK r1 c k with
      | Some a => Some a
      | None => matchK r2 c k
      end
  | Star r1 =>
      (fix loop (n : nat) (c : cursor) {struct n} : option A :=
         match n with
         | O => k c
         | S n' =>
             match matchK r1 c (fun c' =>
                     if length (snd c') <? length (snd c)
                     then loop n' c' else None) with
             | Some a => Some a
             | None => k c
             end
         end) (length (snd c)) c
  | Group r1 => matchK r1 c k
  | Bol => if atLineStart ml c then k c else None
  | Eol => if atLineEnd ml c then k c else None
  | NotBehind p =>
      match fst c with
      | y :: _ => if p y then None else k c
      | [] => k c
      end
  end.
End Matcher.

(** The match of [re] that starts exactly at [c], if any: its end. *)
Definition matchAt (re : t) (c : cursor) : option cursor :=
  matchK (ignoreCase re) (multiline re) (source re) c (fun e => Some e).

(** The leftmost match at or after the position [(before, after)]: the
    forward scan of [RegExpBuiltinExec]. *)
Fixpoint search (re : t) (before after : jsstring) : option (cursor * cursor) :=
  match matchAt re (before, after) with
  | Some e => Some ((before, after), e)
  | None =>
      match after with
      | [] => None
      | c :: rest => search re (c :: before) rest
      end
  end.

(** [re.test(s)] for a pattern without the [g] and [y] flags. *)
Definition test (re : t) (s : jsstring) : bool :=
  match search re [] s with Some _ => true | None => false end.

Fixpoint groups (r : regex) : nat :=
  match r with
  | Seq r1 r2 | Alt r1 r2 => groups r1 + groups r2
  | Star r1 => groups r1
  | Group r1 => S (groups r1)
  | _ => 0
  end.

(** The successive matches of a global scan from [(before, after)]: after a
    match the scan resumes at its end, one code unit further when the match
    was empty. *)
Fixpoint scan (fuel : nat) (re : t) (before after : jsstring)
  : list (cursor * cursor) :=
  match fuel with
  | O => []
  | S fuel' =>
      match search re before after with
      | None => []
      | Some (b, e) =>
          (b, e) ::
          (if length (snd e) <? length (snd b)
           then scan fuel' re (fst e) (snd e)
           else match snd e with
                | [] => []
                | c :: rest => scan fuel' re (c :: fst e) rest
                end)
      end
  end.

(** [s.match(re)]: the length of the returned array, [None] for [null].
    Without the [g] flag the array is the result of [exec]: the matched
    text followed by one entry per capture group.  With the [g] flag it is
    the list of all matched texts. *)
Definition matchLength (re : t) (s : jsstring) : option nat :=
  if global re then
    match scan (S (length s)) re [] s with
    | [] => None
    | ms => Some (length ms)
    end
  else
    match search re [] s with
    | Some _ => Some (S (groups (source re)))
    | None => None
    end.

(** [s.replace(re, repl)] for a global [re] and a replacement text [repl]
    without [$]: the text between the successive matches is kept. *)
Fixpoint replaceFrom (fuel : nat) (re : t) (repl : jsstring)
  (before after : jsstring) : jsstring :=
  match fuel with
  | O => after
  | S fuel' =>
      match matchAt re (before, after) with
      | Some e =>
          if length (snd e) <? length after
          then repl ++ replaceFrom fuel' re repl (fst e) (snd e)
          else repl ++
               match after with
               | [] => []
               | c :: rest => c :: replaceFrom fuel' re repl (c :: before) rest
               end
      | None =>
          match after with
          | [] => []
          | c :: rest => c :: replaceFrom fuel' re repl (c :: before) rest
          end
      end
  end.

Definition replace (re : t) (repl : jsstring) (s : jsstring) : jsstring :=
  replaceFrom (S (length s)) re repl [] s.

(** Pattern syntax. *)
Fixpoint lit (s : jsstring) : regex :=
  match s with
  | [] => Eps
  | [c] => Chr c
  | c :: rest => Seq (Chr c) (lit rest)
  end.

Definition text (s : string) : regex := lit (str s).

Fixpoint alts (rs : list regex) : regex :=
  match rs with
  | [] => Eps
  | [r] => r
  | r :: rest => Alt r (alts rest)
  end.

Fixpoint seqs (rs : list regex) : regex :=
  match rs with
  | [] => Eps
  | [r] => r
  | r :: rest => Seq r (seqs rest)
  end.

Definition plus (r : regex) : regex := Seq r (Star r).
Definition opt (r : regex) : regex := Alt r Eps.

(** [r{1,n+1}], greedy. *)
Fixpoint upTo (n : nat) (r : regex) : regex :=
  match n with
  | O => Eps
  | S n' => opt (Seq r (upTo n' r))
  end.
Definition rep1 (n : nat) (r : regex) : regex := Seq r (upTo (pred n) r).

Definition isWord (c : char) : bool :=
  ((48 <=? c) && (c <=? 57) || (65 <=? c) && (c <=? 90)
   || (97 <=? c) && (c <=? 122) || (c =? 95))%N.

Definition dot : regex := Cls (fun c => negb (isLineTerminator c)).
Definition space : regex := Cls isSpace.                    (* \s *)
Definition word : regex := Cls isWord.                      (* \w *)
Definition anything : regex := Cls (fun _ => true).         (* [\s\S] *)
Definition oneOf (cs : jsstring) : regex :=
  Cls (fun c => existsb (N.eqb c) cs).
Definition noneOf (cs : jsstring) : regex :=
  Cls (fun c => negb (existsb (N.eqb c) cs)).

End RegExp.

(* ===================================================================== *)
(** * src/constants/index.ts *)
(* ===================================================================== *)

Module Constants.
Import RegExp.

(** [VALIDATION_LIMITS]. *)
Definition MAX_SAFE_INPUT_SIZE : Z := 8000.
Definition MIN_CHUNK_SIZE : Z := 1000.
Definition MAX_CHUNK_SIZE : Z := 10000.
Definition CONTEXT_OVERLAP_SIZE : Z := 200.
Definition COMPLEXITY_THRESHOLD : Z := 2000.

(** [DEFAULT_CONFIG.CONTEXT_REFRESH_THRESHOLD]. *)
Definition CONTEXT_REFRESH_THRESHOLD : Z := 10.

Definition plain (r : regex) : RegExp.t := RegExp.mk r false false false.
Definition flag_m (r : regex) : RegExp.t := RegExp.mk r false false true.
Definition flag_i (r : regex) : RegExp.t := RegExp.mk r false true false.

Definition sp1 : regex := plus space.        (* \s+ *)
Definition sp0 : regex := Star space.        (* \s* *)
Definition w1 : regex := plus word.          (* \w+ *)
Definition any0 : regex := Star dot.         (* .*  *)

(** [LANGUAGE_PATTERNS], in declaration order. *)
Definition LANGUAGE_PATTERNS : list (string * RegExp.t) :=
  [ ("javascript",
     (* /function|const|let|var|=>|import.*from/ *)
     plain (alts [text "function"; text "const"; text "let"; text "var";
                  text "=>"; seqs [text "import"; any0; text "from"]]));
    ("typescript",
     (* /interface|type|enum|namespace|import.*from.*[Q].*\.ts/ where the
        class [Q] holds the single and the double quote *)
     plain (alts [text "interface"; text "type"; text "enum";
                  text "namespace";
                  seqs [text "import"; any0; text "from"; any0;
                        oneOf [chr "'"; dquote]; any0; text ".ts"]]));
    ("python",
     (* /def\s+\w+\s*\(|import\s+\w+|from\s+\w+\s+import|class\s+\w+:/ *)
     plain (alts [seqs [text "def"; sp1; w1; sp0; text "("];
                  seqs [text "import"; sp1; w1];
                  seqs [text "from"; sp1; w1; sp1; text "import"];
                  seqs [text "class"; sp1; w1; text ":"]]));
    ("java",
     (* /public\s+class|private\s+void|import\s+java\./ *)
     plain (alts [seqs [text "public"; sp1; text "class"];
                  seqs [text "private"; sp1; text "void"];
                  seqs [text "import"; sp1; text "java."]]));
    ("csharp",
     (* /using\s+System|namespace\s+\w+|public\s+class/ *)
     plain (alts [seqs [text "using"; sp1; text "System"];
                  seqs [text "namespace"; sp1; w1];
                  seqs [text "public"; sp1; text "class"]]));
    ("go",
     (* /package\s+\w+|func\s+\w+|import\s+\(/ *)
     plain (alts [seqs [text "package"; sp1; w1];
                  seqs [text "func"; sp1; w1];
                  seqs [text "import"; sp1; text "("]]));
    ("rust",
     (* /fn\s+\w+|let\s+mut|use\s+std::/ *)
     plain (alts [seqs [text "fn"; sp1; w1];
                  seqs [text "let"; sp1; text "mut"];
                  seqs [text "use"; sp1; text "std::"]]));
    ("cpp",
     (* /#include\s*<|std::|cout|cin/ *)
     plain (alts [seqs [text "#include"; sp0; text "<"];
                  text "std::"; text "cout"; text "cin"]));
    ("c",
     (* /#include\s*<stdio\.h>|printf|scanf/ *)
     plain (alts [seqs [text "#include"; sp0; text "<stdio.h>"];
                  text "printf"; text "scanf"]));
    ("html",
     (* /<html|<!DOCTYPE|<div|<span/ *)
     plain (alts [text "<html"; text "<!DOCTYPE"; text "<div"; text "<span"]));
    ("css",
     (* /\{[^}]*:[^}]*\}|@media|@import/ *)
     plain (alts [seqs [text "{"; Star (noneOf [chr "}"]); text ":";
                        Star (noneOf [chr "}"]); text "}"];
                  text "@media"; text "@import"]));
    ("json",
     (* /^\s*\{[\s\S]*\}\s*$/ *)
     plain (seqs [Bol; sp0; text "{"; Star anything; text "}"; sp0; Eol]));
    ("yaml",
     (* /^[\w-]+:\s*[\w-]/m *)
     flag_m (seqs [Bol; plus (Cls (fun c => isWord c || (c =? 45)%N));
                   text ":"; sp0; Cls (fun c => isWord c || (c =? 45)%N)]));
    ("markdown",
     (* /^#{1,6}\s+|\[.*\]\(.*\)|```/m *)
     flag_m (alts [seqs [Bol; rep1 6 (Chr (chr "#")); sp1];
                   seqs [text "["; any0; text "]("; any0; text ")"];
                   text "```"]));
    ("sql",
     (* /SELECT\s+.*\s+FROM|INSERT\s+INTO|UPDATE\s+.*\s+SET/i *)
     flag_i (alts [seqs [text "SELECT"; sp1; any0; sp1; text "FROM"];
                   seqs [text "INSERT"; sp1; text "INTO"];
                   seqs [text "UPDATE"; sp1; any0; sp1; text "SET"]]));
    ("shell",
     (* /^#!\/bin\/(bash|sh)|echo\s+|export\s+/ *)
     plain (alts [seqs [Bol; text "#!/bin/";
                        Group (Alt (text "bash") (text "sh"))];
                  seqs [text "echo"; sp1];
                  seqs [text "export"; sp1]]))
  ]%string.

End Constants.

(* ===================================================================== *)
(** * src/services/ValidationService.ts *)
(* ===================================================================== *)

Module ValidationService.
Import RegExp Constants.

(** The pattern of [fixDoubleQuotes], with the [g] flag: a negative
    lookbehind for a backslash, then a double quote. *)
Definition unescapedQuote : RegExp.t :=
  RegExp.mk (Seq (NotBehind (N.eqb backslash)) (Chr dquote)) true false false.

(** [fixDoubleQuotes(text)]. *)
Definition fixDoubleQuotes (text : jsstring) : jsstring :=
  if falsy text then text
  else RegExp.replace unescapedQuote [backslash; dquote] text.

(** [hasUnescapedDoubleQuotes(text)]: the same pattern without [g]. *)
Definition hasUnescapedDoubleQuotes (text : jsstring) : bool :=
  RegExp.test (RegExp.mk (source unescapedQuote) false false false) text.

(** The result of [checkInputSize]: [suggestion] is optional. *)
Record SizeCheck : Type := {
  isLarge : bool;
  suggestion : option jsstring
}.

(** [Math.ceil(size / maxSize)].  Both operands are string lengths, far
    below 2^53, so the binary64 quotient lies on the same side of every
    integer as the exact one; the quotient is taken in [Q]. *)
Definition Math_ceil_div (size maxSize : Z) : Z :=
  Qceiling (inject_Z size / inject_Z maxSize).

Definition sizeSuggestion (size maxSize ratio : Z) : jsstring :=
  str "Input is " ++ showZ size ++ str " characters (recommended max: "
  ++ showZ maxSize ++ str "). "
  ++ str "Consider breaking this into " ++ showZ ratio
  ++ str " smaller tasks to avoid "
  ++ [dquote] ++ str "too large input" ++ [dquote]
  ++ str " errors and credit consumption.".

(** [checkInputSize(text)]. *)
Definition checkInputSize (text : jsstring) : SizeCheck :=
  let size := Z.of_nat (length text) in
  let maxSize := MAX_SAFE_INPUT_SIZE in
  if (maxSize <? size)%Z then
    let ratio := Math_ceil_div size maxSize in
    {| isLarge := true;
       suggestion := Some (sizeSuggestion size maxSize ratio) |}
  else
    {| isLarge := false; suggestion := None |}.

(** [validateFilePath(filePath)] on a string. *)
Definition validateFilePath (filePath : jsstring) : bool :=
  if falsy filePath then false
  else if includes filePath (str "..") || includes filePath (str "~")
       then false
       else true.

(** [sanitizeText(text)]: five global one-character replacements, in the
    order of the source. *)
Definition sanitizeText (text : jsstring) : jsstring :=
  if falsy text then []
  else
    replaceChar (chr "/") (str "&#x2F;")
      (replaceChar (chr "'") (str "&#x27;")
         (replaceChar dquote (str "&quot;")
            (replaceChar (chr ">") (str "&gt;")
               (replaceChar (chr "<") (str "&lt;") text)))).

End ValidationService.

(* ===================================================================== *)
(** * JavaScript numbers with a fractional part: IEEE-754 binary64 *)
(* ===================================================================== *)

Module Number.

Definition prec : Z := 53.
Definition emax : Z := 1024.

Definition number : Type := spec_float.

(** The double nearest to an integer. *)
Definition ofZ (z : Z) : number := binary_normalize prec emax z 0 false.
Definition ofNat (n : nat) : number := ofZ (Z.of_nat n).

Definition mul : number -> number -> number := SFmul prec emax.
Definition sub : number -> number -> number := SFsub prec emax.
Definition div : number -> number -> number := SFdiv prec emax.
Definition ltb : number -> number -> bool := SFltb.
Definition leb : number -> number -> bool := SFleb.

(** A decimal literal [n/d]: the double nearest to the quotient, which is
    what the correctly rounded division of the two integers returns. *)
Definition decimal (n d : Z) : number := div (ofZ n) (ofZ d).

Definition zero : number := ofZ 0.
Definition one : number := ofZ 1.
Definition lit_0_2 : number := decimal 2 10.
Definition lit_0_3 : number := decimal 3 10.
Definition lit_0_7 : number := decimal 7 10.

(** [Math.min(x, y)] on numbers that are not NaN. *)
Definition Math_min (x y : number) : number := if ltb y x then y else x.

(** [Math.floor(x)] of a finite number, as an integer. *)
Definition Math_floor (x : number) : Z :=
  match x with
  | S754_finite s m e =>
      let v := if s then Zneg m else Zpos m in
      if (0 <=? e)%Z then (v * 2 ^ e)%Z else (v / 2 ^ (- e))%Z
  | _ => 0%Z
  end.

End Number.

(* ===================================================================== *)
(** * errors/ExtensionError.ts and exceptions *)
(* ===================================================================== *)

Module Errors.

(** [OutputFormat] of the type contracts. *)
Inductive OutputFormat : Type := Default | Enhanced | Markdown | Html.

Inductive ErrorType : Type :=
| VALIDATION_ERROR | PROCESSING_ERROR | UI_ERROR
| CONFIGURATION_ERROR | AUGMENT_API_ERROR.

(** A thrown value: an [ExtensionError] of the repository, with its
    message, type, code and the format of its [details], or an error
    raised by the runtime or by a library. *)
Inductive Exn : Type :=
| ExtensionError (message : string) (type : ErrorType)
    (code : option string) (details : option OutputFormat)
| LibraryError (message : string).

(** [new ProcessingError(message, code, { format })]. *)
Definition ProcessingError (message code : string) (format : OutputFormat)
  : Exn :=
  ExtensionError message PROCESSING_ERROR (Some code) (Some format).

(** [new ConfigurationError(message)]. *)
Definition ConfigurationError (message : string) : Exn :=
  ExtensionError message CONFIGURATION_ERROR None None.

(** A computation that returns or throws. *)
Inductive Result (A : Type) : Type :=
| Ok (a : A)
| Throw (e : Exn).
Arguments Ok {A} a.
Arguments Throw {A} e.

Definition ret {A} (a : A) : Result A := Ok a.

Definition bind {A B} (m : Result A) (k : A -> Result B) : Result B :=
  match m with
  | Ok a => k a
  | Throw e => Throw e
  end.

(** [try { m } catch (error) { h error }]. *)
Definition try_catch {A} (m : Result A) (h : Exn -> Result A) : Result A :=
  match m with
  | Ok a => Ok a
  | Throw e => h e
  end.

Definition throws {A} (m : Result A) : bool :=
  match m with Ok _ => false | Throw _ => true end.

End Errors.

Declare Scope result_scope.
Delimit Scope result_scope with result.
Notation "x <- m ;; k" := (Errors.bind m (fun x => k))
  (at level 61, m at next level, right associativity) : result_scope.

(* ===================================================================== *)
(** * src/services/FormattingService.ts *)
(* ===================================================================== *)

Module FormattingService.
Import RegExp Constants Number Errors.

(** [escapeHtml(text)]: five global one-character replacements, the
    ampersand first. *)
Definition escapeHtml (text : jsstring) : jsstring :=
  replaceChar (chr "'") (str "&#039;")
    (replaceChar dquote (str "&quot;")
       (replaceChar (chr ">") (str "&gt;")
          (replaceChar (chr "<") (str "&lt;")
             (replaceChar (chr "&") (str "&amp;") text)))).

(** [ILanguageDetection]: [language] is optional. *)
Record ILanguageDetection : Type := {
  language : option string;
  confidence : number
}.

Definition noDetection : ILanguageDetection :=
  {| language := None; confidence := zero |}.

(** The confidence computed for one pattern that [test] accepted. *)
Definition patternConfidence (pattern : RegExp.t) (code : jsstring) : number :=
  match matchLength pattern code with
  | Some n => Math_min (mul (ofNat n) lit_0_2) one
  | None => zero
  end.

(** The loop over [Object.entries(LANGUAGE_PATTERNS)]. *)
Fixpoint detect (entries : list (string * RegExp.t)) (code : jsstring)
  : list ILanguageDetection :=
  match entries with
  | [] => []
  | (lang, pattern) :: rest =>
      if RegExp.test pattern code
      then {| language := Some lang;
              confidence := patternConfidence pattern code |}
           :: detect rest code
      else detect rest code
  end.

(** The comparator [(a, b) => b.confidence - a.confidence]. *)
Definition compareFn (a b : ILanguageDetection) : number :=
  sub (confidence b) (confidence a).

(** [Array.prototype.sort] is stable: an element moves behind another only
    when the comparator is positive. *)
Fixpoint insertSorted (x : ILanguageDetection) (l : list ILanguageDetection)
  : list ILanguageDetection :=
  match l with
  | [] => [x]
  | y :: ys =>
      if ltb zero (compareFn x y) then y :: insertSorted x ys
      else x :: y :: ys
  end.

Definition sortDetections (l : list ILanguageDetection)
  : list ILanguageDetection :=
  fold_right insertSorted [] l.

(** [detectLanguage(code)]. *)
Definition detectLanguage (code : jsstring) : ILanguageDetection :=
  if falsy code || (length (trim code) =? 0) then noDetection
  else
    let detections := sortDetections (detect LANGUAGE_PATTERNS code) in
    match detections with
    | best :: _ => if ltb lit_0_3 (confidence best) then best else noDetection
    | [] => noDetection
    end.

(** The capabilities of the libraries and of the runtime that
    [formatOutput] calls; each of them may throw. *)
Record Runtime : Type := {
  (** [marked.parse(text)] *)
  marked_parse : jsstring -> Result jsstring;
  (** [hljs.getLanguage(language)], as a truth value *)
  hljs_getLanguage : jsstring -> Result bool;
  (** [hljs.highlight(code, { language }).value] *)
  hljs_highlight : jsstring -> jsstring -> Result jsstring;
  (** [hljs.highlightAuto(code).value] *)
  hljs_highlightAuto : jsstring -> Result jsstring;
  (** the three [replace] passes of [enhanceOutput], in their order *)
  replaceCodeFences : jsstring -> Result jsstring;
  replaceFunctionResults : jsstring -> Result jsstring;
  replaceCodeSnippets : jsstring -> Result jsstring;
  (** [html.replace(/<pre><code class=...>/g, callback)]: the callback
      receives the match, the language and the code *)
  replaceRenderedBlocks :
    (jsstring -> jsstring -> jsstring -> Result jsstring) ->
    jsstring -> Result jsstring
}.

Section Formatting.
Variable rt : Runtime.
Local Open Scope result_scope.

(** [highlightCode(code, language)]. *)
Definition highlightCode (code lang : jsstring) : Result jsstring :=
  try_catch
    (known <- (if falsy lang then ret false else hljs_getLanguage rt lang) ;;
     if known then hljs_highlight rt code lang
     else hljs_highlightAuto rt code)
    (fun _ => ret (escapeHtml code)).

(** [enhanceOutput(text)]. *)
Definition enhanceOutput (text : jsstring) : Result jsstring :=
  enhanced <- replaceCodeFences rt text ;;
  enhanced <- replaceFunctionResults rt enhanced ;;
  enhanced <- replaceCodeSnippets rt enhanced ;;
  ret enhanced.

(** [formatMarkdown(text)]. *)
Definition formatMarkdown (text : jsstring) : Result jsstring :=
  enhanceOutput text.

(** [formatHTML(text)]. *)
Definition formatHTML (text : jsstring) : Result jsstring :=
  try_catch
    (html <- marked_parse rt text ;;
     html <- replaceRenderedBlocks rt
               (fun matched lang code =>
                  try_catch
                    (highlighted <- highlightCode code lang ;;
                     ret (str "<pre><code class=" ++ [dquote]
                          ++ str "language-" ++ lang ++ str " hljs"
                          ++ [dquote] ++ str ">" ++ highlighted
                          ++ str "</code></pre>"))
                    (fun _ => ret matched))
               html ;;
     ret html)
    (fun _ => ret text).

(** [formatOutput(text, format)].  The calls to the logger and to the
    timer are left out: they return nothing and do not throw. *)
Definition formatOutput (text : jsstring) (format : OutputFormat)
  : Result jsstring :=
  try_catch
    (if falsy text then ret text
     else match format with
          | Default => ret text
          | Enhanced => enhanceOutput text
          | Markdown => formatMarkdown text
          | Html => formatHTML text
          end)
    (fun _ => Throw (ProcessingError "Failed to format output"
                       "FORMAT_ERROR" format)).
End Formatting.

End FormattingService.

(* ===================================================================== *)
(** * src/services/ContextService.ts *)
(* ===================================================================== *)

Module ContextService.
Import Constants Number.

(** The private fields of the service. *)
Record State : Type := {
  contextExchangeCount : Z;
  sessionStartTime : Z;
  lastContextRefresh : Z;
  filesProcessed : Z
}.

(** The argument of [importSessionData]: every field is optional. *)
Record SessionData : Type := {
  data_contextExchangeCount : option Z;
  data_sessionStartTime : option Z;
  data_lastContextRefresh : option Z;
  data_filesProcessed : option Z
}.

Inductive StatusType : Type := green | yellow | red.

Record IStatusInfo : Type := {
  status : StatusType;
  text : jsstring
}.

(** The workspace configuration: the setting
    [fixAugment.contextRefreshThreshold], when the user has set it. *)
Record Configuration : Type := {
  contextRefreshThreshold : option Z
}.

(** [config.get(key, defaultValue)]. *)
Definition config_get (setting : option Z) (defaultValue : Z) : Z :=
  match setting with
  | Some v => v
  | None => defaultValue
  end.

Inductive LogLevel : Type := DEBUG | INFO.

(** A method of the service: it reads and updates the fields and calls the
    logger. *)
Definition Method (A : Type) : Type :=
  State -> A * State * list (LogLevel * jsstring).

Definition ret {A} (a : A) : Method A := fun s => (a, s, []).

Definition bind {A B} (m : Method A) (k : A -> Method B) : Method B :=
  fun s =>
    let '(a, s1, l1) := m s in
    let '(b, s2, l2) := k a s1 in
    (b, s2, l1 ++ l2).

Definition get : Method State := fun s => (s, s, []).
Definition put (s : State) : Method unit := fun _ => (tt, s, []).
Definition log (level : LogLevel) (message : jsstring) : Method unit :=
  fun s => (tt, s, [(level, message)]).

Definition result {A} (m : Method A) (s : State) : A := fst (fst (m s)).
Definition after {A} (m : Method A) (s : State) : State := snd (fst (m s)).

Declare Scope method_scope.
Delimit Scope method_scope with method.
Notation "x <- m ;; k" := (bind m (fun x => k))
  (at level 61, m at next level, right associativity) : method_scope.
Notation "m ;;; k" := (bind m (fun _ => k))
  (at level 61, right associativity) : method_scope.
Local Open Scope method_scope.
Local Open Scope Z_scope.

Definition set_contextExchangeCount (v : Z) : Method unit :=
  s <- get ;;
  put {| contextExchangeCount := v;
         sessionStartTime := sessionStartTime s;
         lastContextRefresh := lastContextRefresh s;
         filesProcessed := filesProcessed s |}.

Definition set_sessionStartTime (v : Z) : Method unit :=
  s <- get ;;
  put {| contextExchangeCount := contextExchangeCount s;
         sessionStartTime := v;
         lastContextRefresh := lastContextRefresh s;
         filesProcessed := filesProcessed s |}.

Definition set_lastContextRefresh (v : Z) : Method unit :=
  s <- get ;;
  put {| contextExchangeCount := contextExchangeCount s;
         sessionStartTime := sessionStartTime s;
         lastContextRefresh := v;
         filesProcessed := filesProcessed s |}.

Definition set_filesProcessed (v : Z) : Method unit :=
  s <- get ;;
  put {| contextExchangeCount := contextExchangeCount s;
         sessionStartTime := sessionStartTime s;
         lastContextRefresh := lastContextRefresh s;
         filesProcessed := v |}.

(** The state of a fresh instance created at time [now]. *)
Definition initial (now : Z) : State :=
  {| contextExchangeCount := 0;
     sessionStartTime := now;
     lastContextRefresh := now;
     filesProcessed := 0 |}.

(** [getExchangeCount()]. *)
Definition getExchangeCount : Method Z :=
  s <- get ;; ret (contextExchangeCount s).

(** [incrementExchangeCount()]. *)
Definition incrementExchangeCount : Method unit :=
  s <- get ;;
  set_contextExchangeCount (contextExchangeCount s + 1) ;;;
  s <- get ;;
  log DEBUG (str "Context exchange count: " ++ showZ (contextExchangeCount s)).

(** [resetExchangeCount()]; [now] is the value of [Date.now()]. *)
Definition resetExchangeCount (now : Z) : Method unit :=
  set_contextExchangeCount 0 ;;;
  set_lastContextRefresh now ;;;
  log INFO (str "Context exchange count reset").

(** [Math.floor(threshold * 0.7)]. *)
Definition warningThreshold (threshold : Z) : Z :=
  Math_floor (mul (ofZ threshold) lit_0_7).

(** [getContextHealth()]. *)
Definition getContextHealth (config : Configuration) : Method IStatusInfo :=
  let threshold :=
    config_get (contextRefreshThreshold config) CONTEXT_REFRESH_THRESHOLD in
  s <- get ;;
  let count := contextExchangeCount s in
  let warning := warningThreshold threshold in
  if threshold <=? count then
    ret {| status := red;
           text := str "Context refresh needed (" ++ showZ count
                   ++ str " exchanges)" |}
  else if warning <=? count then
    ret {| status := yellow;
           text := str "Context getting long (" ++ showZ count
                   ++ str " exchanges)" |}
  else
    ret {| status := green;
           text := str "Context healthy (" ++ showZ count
                   ++ str " exchanges)" |}.

(** [shouldRefreshContext()]. *)
Definition shouldRefreshContext (config : Configuration) : Method bool :=
  let threshold :=
    config_get (contextRefreshThreshold config) CONTEXT_REFRESH_THRESHOLD in
  s <- get ;;
  ret (threshold <=? contextExchangeCount s).

(** [getFilesProcessed()]. *)
Definition getFilesProcessed : Method Z :=
  s <- get ;; ret (filesProcessed s).

(** [incrementFilesProcessed()]. *)
Definition incrementFilesProcessed : Method unit :=
  s <- get ;;
  set_filesProcessed (filesProcessed s + 1) ;;;
  s <- get ;;
  log DEBUG (str "Files processed: " ++ showZ (filesProcessed s)).

(** [resetSession()]; the two readings of [Date.now()] are [now1], [now2]. *)
Definition resetSession (now1 now2 : Z) : Method unit :=
  set_contextExchangeCount 0 ;;;
  set_sessionStartTime now1 ;;;
  set_lastContextRefresh now2 ;;;
  set_filesProcessed 0 ;;;
  log INFO (str "Session reset").

(** [exportSessionData()]. *)
Definition exportSessionData : Method SessionData :=
  s <- get ;;
  ret {| data_contextExchangeCount := Some (contextExchangeCount s);
         data_sessionStartTime := Some (sessionStartTime s);
         data_lastContextRefresh := Some (lastContextRefresh s);
         data_filesProcessed := Some (filesProcessed s) |}.

(** [if (v !== undefined) { this.field = v; }]. *)
Definition whenDefined (v : option Z) (set : Z -> Method unit) : Method unit :=
  match v with
  | Some x => set x
  | None => ret tt
  end.

(** [importSessionData(data)]. *)
Definition importSessionData (data : SessionData) : Method unit :=
  whenDefined (data_contextExchangeCount data) set_contextExchangeCount ;;;
  whenDefined (data_sessionStartTime data) set_sessionStartTime ;;;
  whenDefined (data_lastContextRefresh data) set_lastContextRefresh ;;;
  whenDefined (data_filesProcessed data) set_filesProcessed ;;;
  log INFO (str "Session data imported").

End ContextService.

(* ===================================================================== *)
(** * The chunking service of the type contracts *)
(* ===================================================================== *)

Module ChunkingService.
Import Constants Errors.

(** [ITextChunk] of the type contracts. *)
Record ITextChunk : Type := {
  content : jsstring;
  index : nat;
  hasContext : bool;
  contextPrefix : option jsstring
}.

(** Modelled from the spec: the trailing [n] code units of a text, the
    overlap taken from the previous chunk. *)
Definition trailing (n : nat) (s : jsstring) : jsstring :=
  skipn (length s - n) s.

(** Modelled from the spec: the fixed-size split of [chunkText].  The
    sources declare [IChunkingService.chunkText] and hold no
    implementation of it.  The text is cut, front to back, into segments
    of [maxSize] code units; the last segment holds the rest. *)
Equations? segments (maxSize : nat) (text : jsstring) : list jsstring
  by wf (length text) lt :=
  segments maxSize [] := [];
  segments O (c :: rest) := [c :: rest];
  segments (S m) (c :: rest) :=
    firstn (S m) (c :: rest) :: segments (S m) (skipn (S m) (c :: rest)).
Proof.
  simpl. pose proof (length_skipn m rest). lia.
Qed.

(** Modelled from the spec: every chunk after the first carries, as its
    [contextPrefix], the trailing [CONTEXT_OVERLAP_SIZE] code units of the
    previous chunk's content, prepended to its own segment; indices are
    contiguous from 0; the first chunk has no overlap. *)
Fixpoint assemble (index : nat) (previous : option jsstring)
  (segs : list jsstring) : list ITextChunk :=
  match segs with
  | [] => []
  | seg :: rest =>
      let overlap := option_map (trailing (Z.to_nat CONTEXT_OVERLAP_SIZE)) previous in
      let content :=
        match overlap with
        | Some p => p ++ seg
        | None => seg
        end in
      {| content := content;
         index := index;
         hasContext := match overlap with Some _ => true | None => false end;
         contextPrefix := overlap |}
      :: assemble (S index) (Some content) rest
  end.

(** Modelled from the spec: [chunkText(text, maxSize)], the [naive] mode of
    [chunk].  A zero [maxSize] is a [ConfigurationError]; a zero-length
    input yields the empty sequence. *)
Definition chunkText (text : jsstring) (maxSize : nat)
  : Result (list ITextChunk) :=
  match maxSize with
  | O => Throw (ConfigurationError "maxSize must be positive")
  | S _ => Ok (assemble 0 None (segments maxSize text))
  end.

(** Modelled from the spec: stripping the overlap gives the chunk's
    content without its [contextPrefix]. *)
Definition stripOverlap (c : ITextChunk) : jsstring :=
  match contextPrefix c with
  | Some p => skipn (length p) (content c)
  | None => content c
  end.

Definition reassemble (chunks : list ITextChunk) : jsstring :=
  concat (map stripOverlap chunks).

End ChunkingService.

(* ===================================================================== *)
(** * Reference scanners used to state and prove the properties *)
(* ===================================================================== *)

Module Scanners.

(** Whether the code unit just before the position is a backslash. *)
Definition afterBackslash (before : jsstring) : bool :=
  match before with
  | y :: _ => (backslash =? y)%N
  | [] => false
  end.

(** One left-to-right pass that puts a backslash in front of every double
    quote whose predecessor in the input is not a backslash. *)
Fixpoint escapeFrom (before s : jsstring) : jsstring :=
  match s with
  | [] => []
  | c :: rest =>
      (if (dquote =? c)%N && negb (afterBackslash before)
       then [backslash; dquote] else [c])
      ++ escapeFrom (c :: before) rest
  end.

(** The entity of a code unit under the five-character escaping of the
    specification; [apos] is the numeric entity chosen for the single
    quote. *)
Definition entityOf (apos : jsstring) (c : char) : jsstring :=
  if (c =? 38)%N then str "&amp;"
  else if (c =? 60)%N then str "&lt;"
  else if (c =? 62)%N then str "&gt;"
  else if (c =? 34)%N then str "&quot;"
  else if (c =? 39)%N then apos
  else [c].

(** The entity of a code unit under [sanitizeText]: the slash is escaped
    as well. *)
Definition displayEntity (c : char) : jsstring :=
  if (c =? 60)%N then str "&lt;"
  else if (c =? 62)%N then str "&gt;"
  else if (c =? 34)%N then str "&quot;"
  else if (c =? 39)%N then str "&#x27;"
  else if (c =? 47)%N then str "&#x2F;"
  else [c].

Definition hasAmpersand (s : jsstring) : bool := existsb (N.eqb 38) s.

End Scanners.

(* ===================================================================== *)
(** * Reference definitions for the language detector and the formatter *)
(* ===================================================================== *)

Module Reference.
Import RegExp Constants Number Errors FormattingService.

(** The confidence that [detectLanguage] gives to a catalog entry whenever
    its pattern is found: the pattern has no [g] flag, so the array
    returned by [match] holds the matched text and one entry per capture
    group. *)
Definition entryConfidence (e : string * RegExp.t) : number :=
  Math_min (mul (ofNat (S (groups (source (snd e))))) lit_0_2) one.

Definition detectionOf (e : string * RegExp.t) : ILanguageDetection :=
  {| language := Some (fst e); confidence := entryConfidence e |}.

(** The number of matches of a pattern in a text: the length of
    [code.match] with the [g] flag added to the pattern. *)
Definition matchCount (pattern : RegExp.t) (code : jsstring) : nat :=
  length (scan (S (length code))
            (RegExp.mk (source pattern) true (ignoreCase pattern)
               (multiline pattern)) [] code).

(** The detector as the specification words it: the confidence of a
    matching language is its match count times 0.2, capped at 1.0; the
    candidates are ranked by confidence, ties in declaration order; the
    winner is returned when its confidence exceeds 0.3. *)
Fixpoint detect_spec (entries : list (string * RegExp.t)) (code : jsstring)
  : list ILanguageDetection :=
  match entries with
  | [] => []
  | (lang, pattern) :: rest =>
      match matchCount pattern code with
      | O => detect_spec rest code
      | n => {| language := Some lang;
                confidence := Math_min (mul (ofNat n) lit_0_2) one |}
             :: detect_spec rest code
      end
  end.

Definition detectLanguage_spec (code : jsstring) : ILanguageDetection :=
  if falsy code || (length (trim code) =? 0) then noDetection
  else
    match sortDetections (detect_spec LANGUAGE_PATTERNS code) with
    | best :: _ => if ltb lit_0_3 (confidence best) then best else noDetection
    | [] => noDetection
    end.

Definition javascript : RegExp.t :=
  snd (nth 0 LANGUAGE_PATTERNS (""%string, plain Eps)).

Definition shell : RegExp.t :=
  snd (nth 15 LANGUAGE_PATTERNS (""%string, plain Eps)).

(** The only detection with a language that [detectLanguage] returns. *)
Definition shellDetection : ILanguageDetection :=
  {| language := Some "shell"%string; confidence := mul (ofNat 2) lit_0_2 |}.

(** A number of the closed interval from 0 to 1. *)
Definition inUnitInterval (x : number) : bool := leb zero x && leb x one.

(** A runtime whose markdown renderer fails on every input; its other
    capabilities return their input. *)
Definition brokenRenderer : Runtime :=
  {| marked_parse := fun _ => Throw (LibraryError "marked: cannot parse");
     hljs_getLanguage := fun _ => Ok false;
     hljs_highlight := fun code _ => Ok code;
     hljs_highlightAuto := fun code => Ok code;
     replaceCodeFences := fun s => Ok s;
     replaceFunctionResults := fun s => Ok s;
     replaceCodeSnippets := fun s => Ok s;
     replaceRenderedBlocks := fun _ html => Ok html |}.

(** The block that the callback of [formatHTML] builds around the
    highlighted code. *)
Definition codeBlock (lang highlighted : jsstring) : jsstring :=
  str "<pre><code class=" ++ [dquote] ++ str "language-" ++ lang
  ++ str " hljs" ++ [dquote] ++ str ">" ++ highlighted
  ++ str "</code></pre>".

(** The replacement callback of [formatHTML], with its own [try]: the
    block rebuilt around the highlighted code, and the match as it was
    when [highlightCode] throws. *)
Definition highlightedBlock (rt : Runtime) (matched lang code : jsstring)
  : Result jsstring :=
  try_catch
    (bind (highlightCode rt code lang)
       (fun highlighted => ret (codeBlock lang highlighted)))
    (fun _ => ret matched).

(** A call of the highlighting library throws inside [highlightCode]:
    the lookup of the language, or the highlighter that the lookup
    selects. *)
Definition highlighterFails (rt : Runtime) (code lang : jsstring) : bool :=
  match (if falsy lang then Ok false else hljs_getLanguage rt lang) with
  | Throw _ => true
  | Ok true => throws (hljs_highlight rt code lang)
  | Ok false => throws (hljs_highlightAuto rt code)
  end.

(** A runtime whose first [replace] pass of [enhanceOutput] fails. *)
Definition brokenFences : Runtime :=
  {| marked_parse := fun s => Ok s;
     hljs_getLanguage := fun _ => Ok false;
     hljs_highlight := fun code _ => Ok code;
     hljs_highlightAuto := fun code => Ok code;
     replaceCodeFences :=
       fun _ => Throw (LibraryError "Maximum call stack size exceeded");
     replaceFunctionResults := fun s => Ok s;
     replaceCodeSnippets := fun s => Ok s;
     replaceRenderedBlocks := fun _ html => Ok html |}.

(** The block that the renderer has made of a fence of language [js]
    with the code [1 < 2]. *)
Definition renderedCode : jsstring := str "1 &lt; 2".

Definition renderedBlock : jsstring :=
  str "<pre><code class=" ++ [dquote] ++ str "language-js" ++ [dquote]
  ++ str ">" ++ renderedCode ++ str "</code></pre>".

(** A runtime whose highlighter for a known language fails; its renderer
    returns [renderedBlock] and its [replace] finds that one block. *)
Definition brokenHighlighter : Runtime :=
  {| marked_parse := fun _ => Ok renderedBlock;
     hljs_getLanguage := fun _ => Ok true;
     hljs_highlight := fun _ _ => Throw (LibraryError "Unknown language");
     hljs_highlightAuto := fun code => Ok code;
     replaceCodeFences := fun s => Ok s;
     replaceFunctionResults := fun s => Ok s;
     replaceCodeSnippets := fun s => Ok s;
     replaceRenderedBlocks :=
       fun callback html => callback html (str "js") renderedCode |}.

(** The setting [fixAugment.maxSafeInputSize] of [IExtensionConfig], when
    the user has set it, and its default
    [DEFAULT_CONFIG.MAX_SAFE_INPUT_SIZE]. *)
Record SizeSettings : Type := {
  maxSafeInputSize : option Z
}.

Definition DEFAULT_MAX_SAFE_INPUT_SIZE : Z := 8000.

(** The configured maximum size: [config.get] of the setting. *)
Definition configuredMaximum (config : SizeSettings) : Z :=
  match maxSafeInputSize config with
  | Some v => v
  | None => DEFAULT_MAX_SAFE_INPUT_SIZE
  end.

(** The warning level as the specification words it: the floor of 0.7
    times the threshold, over the integers. *)
Definition warningLevel_spec (threshold : Z) : Z := (7 * threshold / 10)%Z.

(** The thresholds from 1 to [n]. *)
Definition thresholdsUpTo (n : nat) : list Z := map Z.of_nat (seq 1 n).

End Reference.

(* ===================================================================== *)
(** * The rest of src/services/ValidationService.ts *)
(* ===================================================================== *)

Module Complexity.
Import RegExp Constants.

(** [/a.*b/i] for two words [a] and [b]. *)
Definition indicator (a b : string) : RegExp.t :=
  flag_i (seqs [text a; any0; text b]).

(** [COMPLEXITY_INDICATORS] of the constants, in declaration order. *)
Definition COMPLEXITY_INDICATORS : list RegExp.t :=
  [ indicator "write" "documentation";
    indicator "create" "complete";
    indicator "implement" "entire";
    indicator "build" "full";
    indicator "generate" "all";
    indicator "refactor" "everything";
    indicator "migrate" "all" ]%string.

(** [lines.join('\n')]. *)
Fixpoint join (sep : jsstring) (lines : list jsstring) : jsstring :=
  match lines with
  | [] => []
  | [l] => l
  | l :: rest => l ++ sep ++ join sep rest
  end.

(** The fixed part of the advice. *)
Definition baseSuggestions : list jsstring :=
  [ str "This looks like a complex task. Consider breaking it down:";
    [];
    str "1. Start with the main structure or skeleton";
    str "2. Implement core functionality first";
    str "3. Add features incrementally";
    str "4. Test and refine each component";
    str "5. Use " ++ [dquote] ++ str "continue from where you left off"
      ++ [dquote] ++ str " for incomplete responses";
    [];
    str "Benefits:";
    str "- Prevents " ++ [dquote] ++ str "too large input" ++ [dquote]
      ++ str " errors";
    str "- Reduces credit loss from failed operations";
    str "- Allows for better quality control";
    str "- Easier to debug and iterate" ].

(** [generateBreakdownSuggestion(text)]. *)
Definition generateBreakdownSuggestion (text : jsstring) : jsstring :=
  let suggestions := baseSuggestions in
  let suggestions :=
    if RegExp.test (flag_i (alts [RegExp.text "documentation"; RegExp.text "docs"])) text
    then suggestions ++
         [[]; str "For documentation: Start with outline, then fill sections one by one"]
    else suggestions in
  let suggestions :=
    if RegExp.test (flag_i (alts [RegExp.text "refactor"; RegExp.text "migrate"])) text
    then suggestions ++
         [[]; str "For refactoring: Tackle one module/file at a time"]
    else suggestions in
  let suggestions :=
    if RegExp.test (flag_i (alts [RegExp.text "test"; RegExp.text "testing"])) text
    then suggestions ++
         [[]; str "For testing: Write tests for one component/function at a time"]
    else suggestions in
  join [newline] suggestions.

(** [suggestTaskBreakdown(text)]; [None] is [null]. *)
Definition suggestTaskBreakdown (text : jsstring) : option jsstring :=
  let hasComplexity :=
    existsb (fun pattern => RegExp.test pattern text) COMPLEXITY_INDICATORS in
  if hasComplexity && (COMPLEXITY_THRESHOLD <? Z.of_nat (length text))%Z
  then Some (generateBreakdownSuggestion text)
  else None.

End Complexity.

Module InputValidation.
Import Constants Errors.

(** [new ValidationError(message)]. *)
Definition ValidationError (message : string) : Exn :=
  ExtensionError message VALIDATION_ERROR None None.

(** [IInputValidation] of the type contracts. *)
Record IInputValidation : Type := {
  isValid : bool;
  isLarge : bool;
  hasDoubleQuotes : bool;
  needsBreakdown : bool;
  suggestion : option jsstring;
  warnings : list jsstring
}.

(** [a || b] on an optional string: a missing or empty [a] gives [b]. *)
Definition orElse (a : option jsstring) (b : option jsstring) : option jsstring :=
  match a with
  | Some s => if falsy s then b else Some s
  | None => b
  end.

(** [if (a)] on an optional string. *)
Definition truthy (a : option jsstring) : bool :=
  match a with
  | Some s => negb (falsy s)
  | None => false
  end.

Definition sizeWarning (sizeCheck : ValidationService.SizeCheck) : jsstring :=
  match orElse (ValidationService.suggestion sizeCheck)
          (Some (str "Input size exceeds recommended limit")) with
  | Some s => s
  | None => []
  end.

(** [validateInput(text)] on a string; the error caught by the method is
    thrown again as it is. *)
Definition validateInput (text : jsstring) : Result IInputValidation :=
  if falsy text then
    Throw (ValidationError "Invalid input: text must be a non-empty string")
  else
    let sizeCheck := ValidationService.checkInputSize text in
    let hasDoubleQuotes := ValidationService.hasUnescapedDoubleQuotes text in
    let breakdown := Complexity.suggestTaskBreakdown text in
    let warnings :=
      (if ValidationService.isLarge sizeCheck then [sizeWarning sizeCheck]
       else [])
      ++ (if hasDoubleQuotes
          then [str "Contains unescaped double quotes that may cause errors"]
          else [])
      ++ (if truthy breakdown
          then [str "Complex task detected - consider breaking down"]
          else []) in
    Ok {| isValid := (length warnings =? 0);
          isLarge := ValidationService.isLarge sizeCheck;
          hasDoubleQuotes := hasDoubleQuotes;
          needsBreakdown := match breakdown with Some _ => true | None => false end;
          suggestion := orElse breakdown (ValidationService.suggestion sizeCheck);
          warnings := warnings |}.

End InputValidation.

Module Webview.

Local Set Warnings "-register-all".

(** A JavaScript value, as far as [validateWebviewMessage] inspects it: the
    primitives, and an object with its properties. *)
Inductive JSValue : Type :=
| VUndefined
| VNull
| VBoolean (b : bool)
| VNumber (n : Number.number)
| VString (s : jsstring)
| VObject (properties : list (jsstring * JSValue)).

Fixpoint sameString (a b : jsstring) : bool :=
  match a, b with
  | [], [] => true
  | x :: a', y :: b' => (x =? y)%N && sameString a' b'
  | _, _ => false
  end.

(** [!v]. *)
Definition isFalsy (v : JSValue) : bool :=
  match v with
  | VUndefined | VNull => true
  | VBoolean b => negb b
  | VNumber n =>
      match n with
      | S754_zero _ | S754_nan => true
      | _ => false
      end
  | VString s => falsy s
  | VObject _ => false
  end.

Inductive TypeOf : Type :=
| type_undefined | type_object | type_boolean | type_number | type_string.

(** [typeof v]. *)
Definition typeOf (v : JSValue) : TypeOf :=
  match v with
  | VUndefined => type_undefined
  | VNull => type_object
  | VBoolean _ => type_boolean
  | VNumber _ => type_number
  | VString _ => type_string
  | VObject _ => type_object
  end.

Definition isObjectType (t : TypeOf) : bool :=
  match t with type_object => true | _ => false end.

Definition isStringType (t : TypeOf) : bool :=
  match t with type_string => true | _ => false end.

(** [obj.key] on the properties of an object. *)
Fixpoint getProperty (properties : list (jsstring * JSValue)) (key : jsstring)
  : JSValue :=
  match properties with
  | [] => VUndefined
  | (k, v) :: rest => if sameString k key then v else getProperty rest key
  end.

(** [v.key]: on a value that passed the object test. *)
Definition member (v : JSValue) (key : jsstring) : JSValue :=
  match v with
  | VObject properties => getProperty properties key
  | _ => VUndefined
  end.

(** The whitelist of [validateWebviewMessage]. *)
Definition allowedCommands : list jsstring :=
  [ str "refreshDashboard"; str "checkContextHealth"; str "refreshContext";
    str "validateFileContext"; str "optimizePrompt"; str "fixDoubleQuotes";
    str "checkInputSize"; str "suggestBreakdown"; str "openSettings";
    str "openDashboard"; str "closeWelcome" ].

(** The union type [WebviewMessageCommand] of the type contracts. *)
Definition WebviewMessageCommand : list jsstring :=
  [ str "refreshDashboard"; str "checkContextHealth"; str "refreshContext";
    str "validateFileContext"; str "optimizePrompt"; str "fixDoubleQuotes";
    str "checkInputSize"; str "suggestBreakdown"; str "openSettings";
    str "openDashboard"; str "closeWelcome"; str "updateStatus";
    str "updateMetrics" ].

(** [list.includes(v)]: strict equality with an element. *)
Definition includesValue (list : list jsstring) (v : JSValue) : bool :=
  match v with
  | VString s => existsb (sameString s) list
  | _ => false
  end.

(** [validateWebviewMessage(message)]. *)
Definition validateWebviewMessage (message : JSValue) : bool :=
  if isFalsy message || negb (isObjectType (typeOf message)) then false
  else
    let command := member message (str "command") in
    if isFalsy command || negb (isStringType (typeOf command)) then false
    else includesValue allowedCommands command.

End Webview.

(* ===================================================================== *)
(** * The rest of src/services/FormattingService.ts *)
(* ===================================================================== *)

Module Markup.
Import RegExp.

Definition lt : char := 60%N.
Definition gt : char := 62%N.

(** The pattern of [stripHtml], with the [g] flag: an opening angle
    bracket, any code units but the closing bracket, the closing bracket. *)
Definition tagPattern : RegExp.t :=
  RegExp.mk (seqs [Chr lt; Star (noneOf [gt]); Chr gt]) true false false.

(** [stripHtml(html)]. *)
Definition stripHtml (html : jsstring) : jsstring :=
  RegExp.replace tagPattern [] html.

End Markup.

(* ===================================================================== *)
(** * Reference scanners for the added functions *)
(* ===================================================================== *)

Module Scanners2.
Import RegExp Scanners Markup.

(** The iteration of a greedy star, as [matchK] runs it. *)
Definition starLoop (A : Type) (ic ml : bool) (r : regex)
  (k : cursor -> option A) : nat -> cursor -> option A :=
  fix loop (n : nat) (c : cursor) {struct n} : option A :=
    match n with
    | O => k c
    | S n' =>
        match matchK ic ml r c (fun c' =>
                if length (snd c') <? length (snd c)
                then loop n' c' else None) with
        | Some a => Some a
        | None => k c
        end
    end.

(** The continuation of the star in [tagPattern]: the closing bracket. *)
Definition closing (c : cursor) : option cursor :=
  matchK false false (Chr gt) c (fun e => Some e).

(** Whether a double quote without a backslash before it occurs. *)
Fixpoint hasUnescapedFrom (before s : jsstring) : bool :=
  match s with
  | [] => false
  | c :: rest =>
      ((dquote =? c)%N && negb (afterBackslash before))
      || hasUnescapedFrom (c :: before) rest
  end.

(** The number of double quotes without a backslash before them. *)
Fixpoint countUnescapedFrom (before s : jsstring) : nat :=
  match s with
  | [] => 0
  | c :: rest =>
      (if (dquote =? c)%N && negb (afterBackslash before) then 1 else 0)
      + countUnescapedFrom (c :: before) rest
  end.

(** The position just after the first closing bracket. *)
Fixpoint untilGt (before s : jsstring) : option cursor :=
  match s with
  | [] => None
  | c :: rest =>
      if (gt =? c)%N then Some (c :: before, rest) else untilGt (c :: before) rest
  end.

Definition hasGt (s : jsstring) : bool := existsb (N.eqb gt) s.

(** One pass that drops every stretch from an opening bracket to the next
    closing bracket. *)
Fixpoint stripScan (inTag : bool) (s : jsstring) : jsstring :=
  match s with
  | [] => []
  | c :: rest =>
      if inTag then
        if (gt =? c)%N then stripScan false rest else stripScan true rest
      else if (lt =? c)%N && hasGt rest then stripScan true rest
      else c :: stripScan false rest
  end.

(** Whether an opening bracket is followed, somewhere, by a closing one. *)
Fixpoint hasTag (s : jsstring) : bool :=
  match s with
  | [] => false
  | c :: rest => ((lt =? c)%N && hasGt rest) || hasTag rest
  end.

(** Whether one of the code units of [unsafe] occurs. *)
Definition containsAny (unsafe : jsstring) (s : jsstring) : bool :=
  existsb (fun c => existsb (N.eqb c) unsafe) s.

End Scanners2.

(* ===================================================================== *)
(** * The rest of src/services/ContextService.ts *)
(* ===================================================================== *)

Module Session.
Import Constants ContextService.
Local Open Scope method_scope.
Local Open Scope Z_scope.

(** The fields of a new instance: the two initialisers read the clock one
    after the other. *)
Definition fresh (now1 now2 : Z) : State :=
  {| contextExchangeCount := 0;
     sessionStartTime := now1;
     lastContextRefresh := now2;
     filesProcessed := 0 |}.

(** [getSessionDuration()] and [getTimeSinceRefresh()], with the reading
    [now] of the clock. *)
Definition getSessionDuration (now : Z) : Method Z :=
  s <- get ;; ret (now - sessionStartTime s).

Definition getTimeSinceRefresh (now : Z) : Method Z :=
  s <- get ;; ret (now - lastContextRefresh s).

(** [Math.floor(a / b)] for integers of the safe range and a positive
    [b]: the binary64 quotient lies between the same two integers as the
    exact one. *)
Definition Math_floor_div (a b : Z) : Z := a / b.

(** [a % b]: the sign of the result is the sign of [a]. *)
Definition remainder (a b : Z) : Z := Z.rem a b.

(** [formatDuration(ms)]. *)
Definition formatDuration (ms : Z) : jsstring :=
  let seconds := Math_floor_div ms 1000 in
  let minutes := Math_floor_div seconds 60 in
  let hours := Math_floor_div minutes 60 in
  let days := Math_floor_div hours 24 in
  if 0 <? days then
    showZ days ++ str "d " ++ showZ (remainder hours 24) ++ str "h"
  else if 0 <? hours then
    showZ hours ++ str "h " ++ showZ (remainder minutes 60) ++ str "m"
  else if 0 <? minutes then
    showZ minutes ++ str "m"
  else
    showZ seconds ++ str "s".

(** [formatTimeAgo(timestamp)], with the reading [now] of the clock. *)
Definition formatTimeAgo (now timestamp : Z) : jsstring :=
  let diff := now - timestamp in
  let minutes := Math_floor_div diff 60000 in
  if minutes <? 1 then str "Just now"
  else if minutes <? 60 then showZ minutes ++ str "m ago"
  else
    let hours := Math_floor_div minutes 60 in
    if hours <? 24 then showZ hours ++ str "h ago"
    else
      let days := Math_floor_div hours 24 in
      showZ days ++ str "d ago".

Record SessionStats : Type := {
  duration : jsstring;
  exchanges : Z;
  stats_filesProcessed : Z;
  lastRefresh : jsstring
}.

(** [getSessionStats()]; the clock is read once for the duration and once
    for the last refresh. *)
Definition getSessionStats (now1 now2 : Z) : Method SessionStats :=
  d <- getSessionDuration now1 ;;
  s <- get ;;
  ret {| duration := formatDuration d;
         exchanges := contextExchangeCount s;
         stats_filesProcessed := filesProcessed s;
         lastRefresh := formatTimeAgo now2 (lastContextRefresh s) |}.

(** [n] calls of a method, one after the other. *)
Fixpoint times (n : nat) (m : Method unit) : Method unit :=
  match n with
  | O => ret tt
  | S n' => m ;;; times n' m
  end.

(** The states of a service that is created and then driven by its
    increments and resets, with the latest reading of a clock that never
    runs backwards. *)
Inductive reachable : Z -> State -> Prop :=
| reach_fresh (now1 now2 : Z) :
    now1 <= now2 -> reachable now2 (fresh now1 now2)
| reach_incrementExchangeCount (t : Z) (s : State) :
    reachable t s -> reachable t (after incrementExchangeCount s)
| reach_incrementFilesProcessed (t : Z) (s : State) :
    reachable t s -> reachable t (after incrementFilesProcessed s)
| reach_resetExchangeCount (t now : Z) (s : State) :
    reachable t s -> t <= now ->
    reachable now (after (resetExchangeCount now) s)
| reach_resetSession (t now1 now2 : Z) (s : State) :
    reachable t s -> t <= now1 -> now1 <= now2 ->
    reachable now2 (after (resetSession now1 now2) s).

End Session.

(* ===================================================================== *)
(** * src/utils/Logger.ts *)
(* ===================================================================== *)

Module Logger.

Inductive LogLevel : Type := DEBUG | INFO | WARN | ERROR | NONE.

(** The numeric value of the enum member. *)
Definition rank (l : LogLevel) : nat :=
  match l with
  | DEBUG => 0 | INFO => 1 | WARN => 2 | ERROR => 3 | NONE => 4
  end.

(** The fields of a logger. *)
Record t : Type := {
  logLevel : LogLevel;
  prefix : jsstring
}.

Inductive ConsoleMethod : Type :=
| console_debug | console_info | console_warn | console_error.

(** What a call writes: the method of the console and the formatted
    line. *)
Definition Output : Type := list (ConsoleMethod * jsstring).

(** [EXTENSION_NAME]. *)
Definition EXTENSION_NAME : jsstring := str "Fix Augment".

(** [new Logger(prefix)]: the level starts at [INFO]. *)
Definition create (prefix : option jsstring) : t :=
  {| logLevel := INFO;
     prefix := match prefix with Some p => p | None => EXTENSION_NAME end |}.

(** [Logger.getInstance(prefix)] on the static field [instance]: the
    logger returned and the new content of the field. *)
Definition getInstance (instance : option t) (prefix : option jsstring)
  : t * option t :=
  match instance with
  | Some lg => (lg, Some lg)
  | None => let lg := create prefix in (lg, Some lg)
  end.

(** [setLogLevel(level)]. *)
Definition setLogLevel (level : LogLevel) (lg : t) : t :=
  {| logLevel := level; prefix := prefix lg |}.

(** [formatMessage(level, message)]; [timestamp] is the text of
    [new Date().toISOString()]. *)
Definition formatMessage (lg : t) (timestamp : jsstring) (level : string)
  (message : jsstring) : jsstring :=
  str "[" ++ timestamp ++ str "] [" ++ prefix lg ++ str "] ["
  ++ str level ++ str "] " ++ message.

Definition debug (lg : t) (timestamp message : jsstring) : Output :=
  if rank (logLevel lg) <=? rank DEBUG
  then [(console_debug, formatMessage lg timestamp "DEBUG" message)]
  else [].

Definition info (lg : t) (timestamp message : jsstring) : Output :=
  if rank (logLevel lg) <=? rank INFO
  then [(console_info, formatMessage lg timestamp "INFO" message)]
  else [].

Definition warn (lg : t) (timestamp message : jsstring) : Output :=
  if rank (logLevel lg) <=? rank WARN
  then [(console_warn, formatMessage lg timestamp "WARN" message)]
  else [].

(** [error(message, error)]: the details of the error go to the console
    beside the line. *)
Definition error (lg : t) (timestamp message : jsstring) : Output :=
  if rank (logLevel lg) <=? rank ERROR
  then [(console_error, formatMessage lg timestamp "ERROR" message)]
  else [].

(** [createChild(childPrefix)]. *)
Definition createChild (lg : t) (childPrefix : jsstring) : t :=
  let child := create (Some (prefix lg ++ str ":" ++ childPrefix)) in
  setLogLevel (logLevel lg) child.

(** [log(level, message)]: the switch has no case for [NONE]. *)
Definition log (lg : t) (timestamp : jsstring) (level : LogLevel)
  (message : jsstring) : Output :=
  match level with
  | DEBUG => debug lg timestamp message
  | INFO => info lg timestamp message
  | WARN => warn lg timestamp message
  | ERROR => error lg timestamp message
  | NONE => []
  end.

(** [performance(label, startTime)], with the reading [now] of the
    clock. *)
Definition performance (lg : t) (timestamp : jsstring) (label : jsstring)
  (startTime now : Z) : Output :=
  let duration := (now - startTime)%Z in
  debug lg timestamp
    (str "Performance: " ++ label ++ str " took " ++ showZ duration ++ str "ms").

(** [startTimer(label)]: the closure that is returned, to be called with
    the clock reading of the end. *)
Definition startTimer (lg : t) (label : jsstring) (startTime : Z)
  : jsstring -> Z -> Output :=
  fun timestamp now => performance lg timestamp label startTime now.

Definition methodOf (level : LogLevel) : option (ConsoleMethod * string) :=
  match level with
  | DEBUG => Some (console_debug, "DEBUG"%string)
  | INFO => Some (console_info, "INFO"%string)
  | WARN => Some (console_warn, "WARN"%string)
  | ERROR => Some (console_error, "ERROR"%string)
  | NONE => None
  end.

End Logger.

(* ===================================================================== *)
(** * src/core/ExtensionManager.ts *)
(* ===================================================================== *)

Module ExtensionManager.
Import Constants ContextService.
Local Open Scope method_scope.

(** [STATUS_BAR_MESSAGES]. *)
Definition ACTIVE : jsstring := str "$(megaphone) Augment Fix: ON".
Definition INACTIVE : jsstring := str "$(megaphone) Augment Fix: OFF".

Record StatusBarItem : Type := {
  sb_text : jsstring;
  sb_tooltip : jsstring
}.

(** The state of the manager that its toggle reads and writes. *)
Record Manager : Type := {
  enhancementActive : bool;
  statusBarItem : option StatusBarItem
}.

(** What the toggle asks of the editor. *)
Inductive UiEffect : Type :=
| SetContext (key : jsstring) (value : bool)
| ShowInformationMessage (message : jsstring)
| LogInfo (message : jsstring).

(** A new manager: active, without status bar item. *)
Definition newManager : Manager :=
  {| enhancementActive := true; statusBarItem := None |}.

(** [createStatusBar(context)]. *)
Definition createStatusBar (m : Manager) : Manager :=
  {| enhancementActive := enhancementActive m;
     statusBarItem :=
       Some {| sb_text := ACTIVE;
               sb_tooltip := str "Fix Augment is active. Click to toggle." |} |}.

(** [toggleEnhancement()]. *)
Definition toggleEnhancement (m : Manager) : Manager * list UiEffect :=
  let active := negb (enhancementActive m) in
  let '(item, effects) :=
    match statusBarItem m with
    | Some _ =>
        if active then
          (Some {| sb_text := ACTIVE;
                   sb_tooltip := str "Fix Augment is active. Click to toggle." |},
           [SetContext (str "fixAugment.enabled") true;
            ShowInformationMessage (str "Fix Augment is now active")])
        else
          (Some {| sb_text := INACTIVE;
                   sb_tooltip := str "Fix Augment is inactive. Click to toggle." |},
           [SetContext (str "fixAugment.enabled") false;
            ShowInformationMessage (str "Fix Augment is now inactive")])
    | None => (None, [])
    end in
  ({| enhancementActive := active; statusBarItem := item |},
   effects ++
   [LogInfo (str "Enhancement "
             ++ (if active then str "activated" else str "deactivated"))]).

(** [isAugmentOutput(text)]. *)
Definition isAugmentOutput (text : jsstring) : bool :=
  includes text (str "```")
  || includes text (str "function_results")
  || includes text (str "<augment_code_snippet")
  || includes text (str "Agent:")
  || includes text (str "Next Edit:")
  || includes text (str "Instructions:")
  || includes text (str "Chat:").

(** The answer to the warning of [showContextRefreshSuggestion]: the
    button chosen, or none when the warning is dismissed. *)
Inductive Answer : Type :=
| RefreshNow | RemindLater | DontShowAgain | Dismissed.

(** [showContextRefreshSuggestion()], once the user has answered; [now]
    is the clock reading of the reset. *)
Definition showContextRefreshSuggestion (answer : Answer) (now : Z)
  : Method unit :=
  match answer with
  | RefreshNow => resetExchangeCount now
  | _ => ret tt
  end.

(** [handleTextDocumentChange(event)] on the context service: the texts
    of [event.contentChanges], the answer the user gives if the warning is
    shown, and the clock reading of a reset.  The warning is not awaited
    by the handler; its answer is taken to arrive before the next event.
    Nothing in the wrapped body throws. *)
Definition handleTextDocumentChange (active : bool) (config : Configuration)
  (contentChanges : list jsstring) (answer : Answer) (now : Z)
  : Method unit :=
  if negb active || (length contentChanges =? 0) then ret tt
  else
    match contentChanges with
    | [] => ret tt
    | text :: _ =>
        if isAugmentOutput text then
          incrementExchangeCount ;;;
          refresh <- shouldRefreshContext config ;;
          if refresh then showContextRefreshSuggestion answer now
          else ret tt
        else ret tt
    end.

(** The store behind [context.globalState]: keys and the session records
    kept under them. *)
Definition Memento : Type := list (string * SessionData).

Fixpoint memento_get (store : Memento) (key : string) : option SessionData :=
  match store with
  | [] => None
  | (k, v) :: rest => if String.eqb k key then Some v else memento_get rest key
  end.

Definition memento_update (store : Memento) (key : string) (v : SessionData)
  : Memento :=
  (key, v) :: filter (fun e => negb (String.eqb (fst e) key)) store.

(** [saveState()]: nothing is written before [initialize] has set the
    context. *)
Definition saveState (hasContext : bool) (store : Memento) (s : State)
  : Memento :=
  if hasContext
  then memento_update store "sessionData" (result exportSessionData s)
  else store.

(** [loadPersistedState(context)]; the log line of the manager is left
    out. *)
Definition loadPersistedState (store : Memento) : Method unit :=
  match memento_get store "sessionData" with
  | Some sessionData => importSessionData sessionData
  | None => ret tt
  end.

End ExtensionManager.

(* ===================================================================== *)
(** * Reference notions for matches of literal words *)
(* ===================================================================== *)

Module Words.
Import RegExp.

(** Whether the input begins with the word, letter case apart. *)
Fixpoint prefixCI (word input : jsstring) : bool :=
  match word, input with
  | [], _ => true
  | x :: word', y :: input' => sameChar true x y && prefixCI word' input'
  | _ :: _, [] => false
  end.

(** A position of the same input that is not before another. *)
Inductive forward : cursor -> cursor -> Prop :=
| forward_here (c : cursor) : forward c c
| forward_step (before : jsstring) (y : char) (rest : jsstring) (c : cursor) :
    forward (y :: before, rest) c -> forward (before, y :: rest) c.

(** The two lines that a cue adds to the advice. *)
Definition documentationLines : list jsstring :=
  [[]; str "For documentation: Start with outline, then fill sections one by one"].

Definition refactoringLines : list jsstring :=
  [[]; str "For refactoring: Tackle one module/file at a time"].

End Words.

(* ===================================================================== *)
(** * Properties of the validation service *)
(* ===================================================================== *)

Module ValidationFacts.
Import RegExp Constants ValidationService Scanners.

Lemma matchAt_unescapedQuote before after :
  matchAt unescapedQuote (before, after) =
  match after with
  | c :: rest =>
      if (dquote =? c)%N && negb (afterBackslash before)
      then Some (c :: before, rest) else None
  | [] => None
  end.
Proof.
  unfold matchAt, unescapedQuote.
  destruct before as [|y b]; destruct after as [|c rest];
    cbn -[N.eqb]; unfold sameChar; try reflexivity;
    try destruct (backslash =? y)%N; try destruct (dquote =? c)%N;
    reflexivity.
Qed.

Lemma replaceFrom_escapeFrom fuel : forall before after,
  length after < fuel ->
  replaceFrom fuel unescapedQuote [backslash; dquote] before after
  = escapeFrom before after.
Proof.
  induction fuel as [|fuel IH]; intros before after Hlen; [lia|].
  cbn [replaceFrom]. rewrite matchAt_unescapedQuote.
  destruct after as [|c rest]; [reflexivity|].
  cbn [escapeFrom length] in *.
  destruct ((dquote =? c)%N && negb (afterBackslash before)).
  - cbn [snd fst].
    assert (Hlt : (length rest <? S (length rest)) = true)
      by (apply Nat.ltb_lt; lia).
    rewrite Hlt, IH by lia. reflexivity.
  - rewrite IH by lia. reflexivity.
Qed.

Lemma fixDoubleQuotes_escapeFrom text :
  fixDoubleQuotes text = escapeFrom [] text.
Proof.
  unfold fixDoubleQuotes. destruct text as [|c rest]; [reflexivity|].
  cbn [falsy]. unfold RegExp.replace.
  apply replaceFrom_escapeFrom. lia.
Qed.

(** The pass looks at the context only through its nearest code unit. *)
Lemma escapeFrom_context s : forall b1 b2,
  afterBackslash b1 = afterBackslash b2 ->
  escapeFrom b1 s = escapeFrom b2 s.
Proof.
  destruct s as [|c rest]; intros b1 b2 H; [reflexivity|].
  cbn [escapeFrom]. rewrite H. f_equal.
  clear H. revert c b1 b2.
  induction rest as [|d rest IH]; intros c b1 b2; [reflexivity|].
  cbn [escapeFrom afterBackslash]. f_equal. apply IH.
Qed.

Lemma escapeFrom_idempotent s : forall before,
  escapeFrom before (escapeFrom before s) = escapeFrom before s.
Proof.
  induction s as [|c rest IH]; intros before; [reflexivity|].
  cbn [escapeFrom].
  destruct ((dquote =? c)%N && negb (afterBackslash before)) eqn:E.
  - apply andb_true_iff in E as [Hq _]. apply N.eqb_eq in Hq. subst c.
    change (escapeFrom before
              ([backslash; dquote] ++ escapeFrom (dquote :: before) rest))
      with (backslash :: dquote ::
              escapeFrom (dquote :: backslash :: before)
                (escapeFrom (dquote :: before) rest)).
    cbn [app]. do 2 f_equal.
    rewrite (escapeFrom_context _ (dquote :: backslash :: before)
               (dquote :: before)) by reflexivity.
    apply IH.
  - cbn [app escapeFrom]. rewrite E. cbn [app]. f_equal. apply IH.
Qed.

(** C5.  [fixDoubleQuotes] (the specification's [escapeQuotes]) is
    idempotent: applying it to its own result changes nothing, so quotes
    that are already escaped are not escaped again; and the empty input
    gives the empty output. *)
Theorem fixDoubleQuotes_idempotent :
  (forall s : jsstring,
      fixDoubleQuotes (fixDoubleQuotes s) = fixDoubleQuotes s)
  /\ fixDoubleQuotes [] = [].
Proof.
  split; [|reflexivity].
  intros s. rewrite !fixDoubleQuotes_escapeFrom.
  apply escapeFrom_idempotent.
Qed.

(** The first two unit tests of [fixDoubleQuotes]. *)
Example fixDoubleQuotes_hello :
  let input := str "Hello " ++ [dquote] ++ str "world" ++ [dquote] in
  let expected := str "Hello \" ++ [dquote] ++ str "world\" ++ [dquote] in
  fixDoubleQuotes input = expected /\ fixDoubleQuotes expected = expected.
Proof. split; vm_compute; reflexivity. Qed.

(** ** Escaping for display *)

Lemma flat_map_compose (A B C : Type) (g : B -> list C) (f : A -> list B) s :
  flat_map g (flat_map f s) = flat_map (fun x => flat_map g (f x)) s.
Proof.
  induction s as [|x s IH]; [reflexivity|].
  cbn [flat_map]. rewrite flat_map_app, IH. reflexivity.
Qed.

Lemma replaceChar_flat_map c r (f : char -> jsstring) s :
  replaceChar c r (flat_map f s)
  = flat_map (fun x => replaceChar c r (f x)) s.
Proof. unfold replaceChar. apply flat_map_compose. Qed.

Lemma flat_map_unit (s : jsstring) : flat_map (fun x => [x]) s = s.
Proof. induction s as [|x s IH]; [reflexivity|]. cbn. now rewrite IH. Qed.

Lemma replaceChar_other c r x :
  x <> c -> replaceChar c r [x] = [x].
Proof.
  intros H. unfold replaceChar. cbn [flat_map].
  apply N.eqb_neq in H. rewrite H. reflexivity.
Qed.

(** Case analysis on a code unit against a literal. *)
Ltac split_char x n :=
  destruct (N.eq_dec x n) as [->|];
  [vm_compute; reflexivity|].

Ltac other_char :=
  repeat match goal with
         | H : ?x <> ?n |- context [(?x =? ?n)%N] =>
             rewrite (proj2 (N.eqb_neq x n) H)
         end;
  rewrite ?replaceChar_other by assumption.

Lemma sanitizeText_pointwise x :
  replaceChar (chr "/") (str "&#x2F;")
    (replaceChar (chr "'") (str "&#x27;")
       (replaceChar dquote (str "&quot;")
          (replaceChar (chr ">") (str "&gt;")
             (replaceChar (chr "<") (str "&lt;") [x]))))
  = displayEntity x.
Proof.
  split_char x 60%N. split_char x 62%N. split_char x 34%N.
  split_char x 39%N. split_char x 47%N.
  unfold displayEntity, chr, dquote. cbn [N_of_ascii].
  change (N_of_ascii "/") with 47%N. change (N_of_ascii "'") with 39%N.
  change (N_of_ascii ">") with 62%N. change (N_of_ascii "<") with 60%N.
  other_char. reflexivity.
Qed.

Lemma sanitizeText_flat_map text :
  sanitizeText text = flat_map displayEntity text.
Proof.
  unfold sanitizeText. destruct text as [|c rest]; [reflexivity|].
  cbn [falsy].
  rewrite <- (flat_map_unit (c :: rest)) at 1.
  rewrite !replaceChar_flat_map.
  apply flat_map_ext. intros x. apply sanitizeText_pointwise.
Qed.

(** C3 (as claimed, refuted).  On the input [a/b], [sanitizeText] rewrites
    the slash, which is not one of the five characters, so its result is
    not the five-character escaping of the input, whatever entity is
    chosen for the single quote. *)
Lemma sanitizeText_escapes_slash :
  sanitizeText (str "a/b") = str "a&#x2F;b"
  /\ forall apos, sanitizeText (str "a/b") <> flat_map (entityOf apos) (str "a/b").
Proof.
  split; [vm_compute; reflexivity|].
  intros apos. vm_compute. discriminate.
Qed.

(** [sanitizeText] has no replacement for the ampersand: an entity in the
    input comes out unchanged. *)
Example sanitizeText_keeps_ampersand :
  sanitizeText (str "&lt;b&gt;") = str "&lt;b&gt;".
Proof. vm_compute. reflexivity. Qed.

(** The third unit test of [sanitizeText] and the one on quotes. *)
Example sanitizeText_tests :
  sanitizeText [] = []
  /\ sanitizeText (str "say " ++ [dquote] ++ str "hi" ++ [dquote] ++ str " and 'bye'")
     = str "say &quot;hi&quot; and &#x27;bye&#x27;".
Proof. split; vm_compute; reflexivity. Qed.

Lemma escapeHtml_pointwise x :
  replaceChar (chr "'") (str "&#039;")
    (replaceChar dquote (str "&quot;")
       (replaceChar (chr ">") (str "&gt;")
          (replaceChar (chr "<") (str "&lt;")
             (replaceChar (chr "&") (str "&amp;") [x]))))
  = entityOf (str "&#039;") x.
Proof.
  split_char x 38%N. split_char x 60%N. split_char x 62%N.
  split_char x 34%N. split_char x 39%N.
  unfold entityOf, chr, dquote.
  change (N_of_ascii "&") with 38%N. change (N_of_ascii "'") with 39%N.
  change (N_of_ascii ">") with 62%N. change (N_of_ascii "<") with 60%N.
  other_char. reflexivity.
Qed.

Lemma escapeHtml_flat_map text :
  FormattingService.escapeHtml text = flat_map (entityOf (str "&#039;")) text.
Proof.
  unfold FormattingService.escapeHtml.
  rewrite <- (flat_map_unit text) at 1.
  rewrite !replaceChar_flat_map.
  apply flat_map_ext. intros x. apply escapeHtml_pointwise.
Qed.

(** C3 (amended).  [escapeHtml] escapes exactly the five characters
    ampersand, less-than, greater-than, double quote and single quote,
    each occurrence by its entity and nothing else, the ampersand first so
    that the entities it has just written are not escaped again.
    [sanitizeText], on a text without ampersand, escapes exactly
    less-than, greater-than, double quote, single quote and slash, each
    occurrence by its entity and nothing else. *)
Theorem display_escaping (text : jsstring) :
  FormattingService.escapeHtml text = flat_map (entityOf (str "&#039;")) text
  /\ (hasAmpersand text = false ->
      sanitizeText text = flat_map displayEntity text).
Proof.
  split; [apply escapeHtml_flat_map|].
  intros _. apply sanitizeText_flat_map.
Qed.

Lemma display_escaping_witness :
  let text := str "<a href='x/y'>" ++ [dquote] ++ str "T</a>" in
  hasAmpersand text = false
  /\ sanitizeText text
     = str "&lt;a href=&#x27;x&#x2F;y&#x27;&gt;&quot;T&lt;&#x2F;a&gt;".
Proof.
  intros text.
  assert (H : hasAmpersand text = false) by (vm_compute; reflexivity).
  split; [exact H|].
  rewrite (proj2 (display_escaping text) H).
  vm_compute. reflexivity.
Defined.

(** Were the ampersand replaced last, the entities written by the earlier
    replacements would be escaped a second time; [escapeHtml] on the same
    input does not do that. *)
Example ampersand_first_matters :
  replaceChar (chr "&") (str "&amp;") (replaceChar (chr "<") (str "&lt;") (str "<"))
  = str "&amp;lt;"
  /\ FormattingService.escapeHtml (str "<&") = str "&lt;&amp;".
Proof. split; vm_compute; reflexivity. Qed.

(** ** Size classification *)

Lemma Math_ceil_div_spec size :
  let ratio := Math_ceil_div size MAX_SAFE_INPUT_SIZE in
  ((ratio - 1) * MAX_SAFE_INPUT_SIZE < size <= ratio * MAX_SAFE_INPUT_SIZE)%Z.
Proof.
  unfold Math_ceil_div, MAX_SAFE_INPUT_SIZE, Qceiling, Qfloor.
  cbn. rewrite Z.mul_1_r.
  pose proof (Z.div_mod (- size) 8000 ltac:(lia)) as Hdm.
  pose proof (Z.mod_pos_bound (- size) 8000 ltac:(lia)) as Hb.
  lia.
Qed.

(** C6 (amended).  [checkInputSize] reports [isLarge] exactly when the
    length of the text exceeds the maximum [MAX_SAFE_INPUT_SIZE], the
    constant 8000 of [VALIDATION_LIMITS]; a large text gets a suggestion
    that spells out its length, that maximum and the number of parts
    [ratio], the ceiling of length / maximum; a text that is not large
    gets no suggestion. *)
Theorem checkInputSize_classifies (text : jsstring) :
  let size := Z.of_nat (length text) in
  let r := checkInputSize text in
  (isLarge r = true <-> (MAX_SAFE_INPUT_SIZE < size)%Z)
  /\ ((MAX_SAFE_INPUT_SIZE < size)%Z ->
      exists ratio : Z,
        ((ratio - 1) * MAX_SAFE_INPUT_SIZE < size
         <= ratio * MAX_SAFE_INPUT_SIZE)%Z
        /\ suggestion r =
           Some (str "Input is " ++ showZ size
                 ++ str " characters (recommended max: "
                 ++ showZ MAX_SAFE_INPUT_SIZE
                 ++ str "). Consider breaking this into " ++ showZ ratio
                 ++ str " smaller tasks to avoid " ++ [dquote]
                 ++ str "too large input" ++ [dquote]
                 ++ str " errors and credit consumption."))
  /\ ((size <= MAX_SAFE_INPUT_SIZE)%Z -> suggestion r = None)
  /\ MAX_SAFE_INPUT_SIZE = 8000%Z.
Proof.
  intros size r. subst r. unfold checkInputSize. fold size.
  destruct (MAX_SAFE_INPUT_SIZE <? size)%Z eqn:E; cbn [isLarge suggestion].
  - apply Z.ltb_lt in E. split; [tauto|]. split; [|split; [lia|reflexivity]].
    intros _. exists (Math_ceil_div size MAX_SAFE_INPUT_SIZE).
    split; [apply Math_ceil_div_spec|].
    reflexivity.
  - apply Z.ltb_ge in E. split; [split; [discriminate|lia]|].
    split; [lia|split; reflexivity].
Qed.

(** C6 (as claimed, refuted).  A text of 5000 characters exceeds a
    configured maximum of 4000, and [checkInputSize] does not report it as
    large: the setting is not read, the text is measured against 8000. *)
Lemma checkInputSize_ignores_configured_maximum :
  let config := {| Reference.maxSafeInputSize := Some 4000%Z |} in
  let text := repeat (chr "x") (Z.to_nat 5000) in
  (Reference.configuredMaximum config < Z.of_nat (length text))%Z
  /\ isLarge (checkInputSize text) = false
  /\ suggestion (checkInputSize text) = None.
Proof. vm_compute. repeat split. Qed.

(** Scenario B of the specification: 10000 characters against the maximum
    of 8000. *)
Lemma checkInputSize_classifies_witness :
  let text := repeat (chr "x") (Z.to_nat 10000) in
  isLarge (checkInputSize text) = true
  /\ exists ratio : Z,
       ((ratio - 1) * 8000 < 10000 <= ratio * 8000)%Z
       /\ suggestion (checkInputSize text) =
          Some (str "Input is 10000 characters (recommended max: 8000). Consider breaking this into "
                ++ showZ ratio ++ str " smaller tasks to avoid " ++ [dquote]
                ++ str "too large input" ++ [dquote]
                ++ str " errors and credit consumption.").
Proof.
  intros text.
  destruct (checkInputSize_classifies text) as [Hlarge [Hsugg _]].
  assert (Hsize : Z.of_nat (length text) = 10000%Z)
    by (vm_compute; reflexivity).
  rewrite Hsize in Hlarge, Hsugg.
  assert (Hlt : (MAX_SAFE_INPUT_SIZE < 10000)%Z) by (vm_compute; reflexivity).
  split; [apply Hlarge; exact Hlt|].
  destruct (Hsugg Hlt) as [ratio [Hr Hs]].
  exists ratio. split; [exact Hr|].
  rewrite Hs. f_equal.
Defined.

End ValidationFacts.

(* ===================================================================== *)
(** * Properties of the context service *)
(* ===================================================================== *)

Module ContextFacts.
Import Constants Number ContextService.
Local Open Scope Z_scope.

(** The methods that only read leave the state as it is. *)
Lemma readers_keep_state (config : Configuration) (s : State) :
  after (getContextHealth config) s = s
  /\ after (shouldRefreshContext config) s = s
  /\ after exportSessionData s = s.
Proof.
  unfold after, getContextHealth, shouldRefreshContext, exportSessionData,
    bind, get, ret.
  repeat split; cbn;
    repeat match goal with |- context [if ?b then _ else _] => destruct b end;
    reflexivity.
Qed.

Lemma status_of_getContextHealth (config : Configuration) (s : State) :
  let threshold :=
    config_get (contextRefreshThreshold config) CONTEXT_REFRESH_THRESHOLD in
  let count := contextExchangeCount s in
  status (result (getContextHealth config) s) =
  if threshold <=? count then red
  else if Math_floor (mul (ofZ threshold) lit_0_7) <=? count then yellow
  else green.
Proof.
  intros threshold count.
  unfold result, getContextHealth, bind, get, ret, warningThreshold.
  fold threshold. cbn [fst snd]. fold count.
  destruct (threshold <=? count); [reflexivity|].
  destruct (Math_floor (mul (ofZ threshold) lit_0_7) <=? count); reflexivity.
Qed.

(** The three bands of [getContextHealth] in terms of the warning level
    that the code computes.  For a positive refresh threshold, the status
    is [red] exactly when the exchange count has reached the threshold,
    which is exactly when [shouldRefreshContext] answers true; it is
    [yellow] exactly when the count has reached
    [Math.floor(threshold * 0.7)], the floor of the binary64 product, and
    is below the threshold; it is [green] in the remaining case. *)
Lemma getContextHealth_status (config : Configuration) (s : State) :
  let threshold :=
    config_get (contextRefreshThreshold config) CONTEXT_REFRESH_THRESHOLD in
  let count := contextExchangeCount s in
  let health := status (result (getContextHealth config) s) in
  let warning := Math_floor (mul (ofZ threshold) lit_0_7) in
  0 < threshold ->
  (health = red <-> threshold <= count)
  /\ (result (shouldRefreshContext config) s = true <-> threshold <= count)
  /\ (health = yellow <-> warning <= count < threshold)
  /\ (health = green <-> ~ threshold <= count /\ ~ warning <= count < threshold).
Proof.
  intros threshold count health warning _.
  subst health. rewrite status_of_getContextHealth.
  fold threshold count warning.
  assert (Hrefresh : result (shouldRefreshContext config) s
                     = (threshold <=? count)) by reflexivity.
  rewrite Hrefresh.
  destruct (Z.leb_spec threshold count) as [Hred|Hred].
  - repeat split; intros; try discriminate; try lia; try reflexivity.
  - destruct (Z.leb_spec warning count) as [Hy|Hy];
      repeat split; intros; try discriminate; try lia; try reflexivity.
Qed.

(** With the default threshold of 10 the warning level is 7: the seventh
    exchange turns the status yellow. *)
Lemma getContextHealth_status_witness :
  let config := {| contextRefreshThreshold := None |} in
  let s := {| contextExchangeCount := 7; sessionStartTime := 1000;
              lastContextRefresh := 1000; filesProcessed := 0 |} in
  status (result (getContextHealth config) s) = yellow
  /\ result (shouldRefreshContext config) s = false.
Proof.
  intros config s.
  assert (Hpos : 0 < config_get (contextRefreshThreshold config)
                       CONTEXT_REFRESH_THRESHOLD) by reflexivity.
  destruct (getContextHealth_status config s Hpos) as (_ & _ & Hyellow & _).
  split; [|reflexivity].
  apply Hyellow. vm_compute. split; [discriminate|reflexivity].
Defined.

(** The warning level is the floor of the binary64 product: it is 7 for
    the default threshold of 10, and 62 for a threshold of 90, whose
    product with 0.7 rounds to the double just below 63. *)
Example warningThreshold_values :
  warningThreshold 10 = 7 /\ warningThreshold 20 = 14
  /\ warningThreshold 90 = 62.
Proof. repeat split; vm_compute; reflexivity. Qed.

(** For every threshold from 1 to 1000 the warning level of the code is
    the floor of 0.7 times the threshold or one below it, and it is that
    floor whenever the threshold is not a multiple of 10. *)
Lemma warningThreshold_near_floor (threshold : Z) :
  1 <= threshold <= 1000 ->
  Reference.warningLevel_spec threshold - 1 <= warningThreshold threshold
    <= Reference.warningLevel_spec threshold
  /\ (threshold mod 10 <> 0 ->
      warningThreshold threshold = Reference.warningLevel_spec threshold).
Proof.
  intros Hrange.
  assert (Hall : forallb
            (fun t =>
               let w := warningThreshold t in
               let f := Reference.warningLevel_spec t in
               (f - 1 <=? w) && (w <=? f)
               && ((t mod 10 =? 0) || (w =? f)))
            (Reference.thresholdsUpTo 1000) = true)
    by (vm_compute; reflexivity).
  rewrite forallb_forall in Hall.
  assert (Hin : In threshold (Reference.thresholdsUpTo 1000)).
  { unfold Reference.thresholdsUpTo.
    rewrite <- (Z2Nat.id threshold) by lia.
    apply in_map, in_seq. lia. }
  specialize (Hall threshold Hin). cbv zeta in Hall.
  apply andb_true_iff in Hall. destruct Hall as [Hbounds Heq].
  apply andb_true_iff in Hbounds. destruct Hbounds as [Hlo Hhi].
  apply Z.leb_le in Hlo, Hhi.
  split; [lia|].
  intros Hmod. apply orb_true_iff in Heq. destruct Heq as [Heq|Heq].
  - apply Z.eqb_eq in Heq. contradiction.
  - apply Z.eqb_eq in Heq. exact Heq.
Qed.

(** C8 (defect of the code).  With a configured threshold of 90 the floor
    of 0.7 times the threshold is 63, so that a count of 62 is below the
    warning level of the claim; the code takes the floor of the binary64
    product [90 * 0.7], which is 62, and answers [yellow] at a count of
    62.  Among the thresholds from 1 to 200 the two levels differ at 90,
    170 and 180; at the default threshold of 10 both are 7. *)
Theorem getContextHealth_yellow_below_warning_level :
  let config := {| contextRefreshThreshold := Some 90 |} in
  let s := {| contextExchangeCount := 62; sessionStartTime := 1000;
              lastContextRefresh := 1000; filesProcessed := 0 |} in
  Reference.warningLevel_spec 90 = 63
  /\ warningThreshold 90 = 62
  /\ status (result (getContextHealth config) s) = yellow
  /\ ~ (Reference.warningLevel_spec 90 <= contextExchangeCount s < 90)
  /\ result (shouldRefreshContext config) s = false
  /\ filter (fun t => negb (warningThreshold t
                              =? Reference.warningLevel_spec t))
        (Reference.thresholdsUpTo 200) = [90; 170; 180]
  /\ warningThreshold CONTEXT_REFRESH_THRESHOLD
     = Reference.warningLevel_spec CONTEXT_REFRESH_THRESHOLD.
Proof.
  intros config s.
  refine (conj _ (conj _ (conj _ (conj _ (conj _ (conj _ _))))));
    try (vm_compute; reflexivity).
  cbn [contextExchangeCount s]. intros [Hlevel _].
  revert Hlevel. vm_compute. intros H. apply H. reflexivity.
Qed.

(** C9.  Exporting the session record and importing it again leaves the
    four fields as they were, in every state (the reachable ones
    included); and [importSessionData] leaves a field unchanged when its
    argument has no value for it. *)
Theorem import_export_roundtrip (s : State) :
  after (bind exportSessionData importSessionData) s = s
  /\ forall data : SessionData,
       let s' := after (importSessionData data) s in
       (data_contextExchangeCount data = None ->
          contextExchangeCount s' = contextExchangeCount s)
       /\ (data_sessionStartTime data = None ->
          sessionStartTime s' = sessionStartTime s)
       /\ (data_lastContextRefresh data = None ->
          lastContextRefresh s' = lastContextRefresh s)
       /\ (data_filesProcessed data = None ->
          filesProcessed s' = filesProcessed s).
Proof.
  split.
  - destruct s; reflexivity.
  - intros [c t r f] s'. subst s'. cbn [data_contextExchangeCount
      data_sessionStartTime data_lastContextRefresh data_filesProcessed].
    repeat split; intros ->; destruct s;
      repeat match goal with x : option Z |- _ => destruct x end;
      reflexivity.
Qed.

Lemma import_export_roundtrip_witness :
  let s := {| contextExchangeCount := 4; sessionStartTime := 1000;
              lastContextRefresh := 2000; filesProcessed := 9 |} in
  let data := {| data_contextExchangeCount := None;
                 data_sessionStartTime := None;
                 data_lastContextRefresh := Some 3000;
                 data_filesProcessed := None |} in
  after (importSessionData data) s =
  {| contextExchangeCount := 4; sessionStartTime := 1000;
     lastContextRefresh := 3000; filesProcessed := 9 |}
  /\ contextExchangeCount (after (importSessionData data) s) = 4
  /\ sessionStartTime (after (importSessionData data) s) = 1000
  /\ filesProcessed (after (importSessionData data) s) = 9.
Proof.
  intros s data.
  destruct (import_export_roundtrip s) as [_ Hframe].
  destruct (Hframe data) as (Hc & Ht & _ & Hf).
  split; [reflexivity|].
  split; [exact (Hc eq_refl)|].
  split; [exact (Ht eq_refl)|exact (Hf eq_refl)].
Defined.

(** C10.  [incrementExchangeCount] adds one to [contextExchangeCount] and
    keeps the three other fields; [incrementFilesProcessed] adds one to
    [filesProcessed] and keeps the three other fields. *)
Theorem increments_frame (s : State) :
  let s1 := after incrementExchangeCount s in
  let s2 := after incrementFilesProcessed s in
  (contextExchangeCount s1 = contextExchangeCount s + 1
   /\ sessionStartTime s1 = sessionStartTime s
   /\ lastContextRefresh s1 = lastContextRefresh s
   /\ filesProcessed s1 = filesProcessed s)
  /\ (filesProcessed s2 = filesProcessed s + 1
      /\ contextExchangeCount s2 = contextExchangeCount s
      /\ sessionStartTime s2 = sessionStartTime s
      /\ lastContextRefresh s2 = lastContextRefresh s).
Proof. destruct s. repeat split. Qed.

(** The logger receives the new count. *)
Example incrementExchangeCount_log :
  snd (incrementExchangeCount (initial 1000))
  = [(DEBUG, str "Context exchange count: 1")].
Proof. vm_compute. reflexivity. Qed.

End ContextFacts.

(* ===================================================================== *)
(** * Properties of the language detector *)
(* ===================================================================== *)

Module DetectionFacts.
Import RegExp Constants Number Errors FormattingService Reference.

(** ** Blank input *)

Lemma trimStart_blank (s : jsstring) :
  forallb isSpace s = true -> trimStart s = [].
Proof.
  induction s as [|c rest IH]; [reflexivity|].
  cbn [forallb trimStart]. intros H.
  apply andb_true_iff in H as [Hc Hrest].
  rewrite Hc. apply IH, Hrest.
Qed.

Lemma trim_blank (s : jsstring) :
  forallb isSpace s = true -> trim s = [].
Proof.
  intros H. unfold trim. rewrite (trimStart_blank s H). reflexivity.
Qed.

(** ** The candidates and their ranking *)

Lemma patternConfidence_found (lang : string) pattern code :
  global pattern = false ->
  RegExp.test pattern code = true ->
  patternConfidence pattern code = entryConfidence (lang, pattern).
Proof.
  unfold patternConfidence, matchLength, RegExp.test, entryConfidence.
  intros -> Hfound.
  destruct (search pattern [] code); [reflexivity|discriminate].
Qed.

Lemma detect_candidates entries code :
  forallb (fun e => negb (global (snd e))) entries = true ->
  forall d, In d (detect entries code) -> In d (map detectionOf entries).
Proof.
  induction entries as [|[lang pattern] rest IH]; intros Hng d Hin;
    [contradiction|].
  cbn [forallb snd] in Hng. apply andb_true_iff in Hng as [Hp Hrest].
  apply negb_true_iff in Hp.
  cbn [detect] in Hin. cbn [map].
  destruct (RegExp.test pattern code) eqn:Hfound.
  - destruct Hin as [<-|Hin].
    + left. unfold detectionOf. cbn [fst].
      now rewrite (patternConfidence_found lang pattern code Hp Hfound).
    + right. now apply IH.
  - right. now apply IH.
Qed.

Lemma insertSorted_In x l d :
  In d (insertSorted x l) -> d = x \/ In d l.
Proof.
  induction l as [|y ys IH]; cbn [insertSorted]; intros Hin.
  - destruct Hin as [<-|[]]. now left.
  - destruct (ltb zero (compareFn x y)).
    + destruct Hin as [<-|Hin]; [right; now left|].
      destruct (IH Hin) as [->|H]; [now left|right; now right].
    + destruct Hin as [<-|Hin]; [now left|now right].
Qed.

Lemma sortDetections_In l d :
  In d (sortDetections l) -> In d l.
Proof.
  revert d. induction l as [|x l IH]; intros d Hin; [contradiction|].
  cbn [sortDetections fold_right] in Hin.
  apply insertSorted_In in Hin as [->|Hin]; [now left|].
  right. now apply IH.
Qed.

Lemma catalog_not_global :
  forallb (fun e => negb (global (snd e))) LANGUAGE_PATTERNS = true.
Proof. vm_compute. reflexivity. Qed.

(** The result of [detectLanguage] is [noDetection] or the detection of a
    catalog entry whose confidence exceeds 0.3. *)
Lemma detectLanguage_cases code :
  detectLanguage code = noDetection
  \/ exists e, In e LANGUAGE_PATTERNS
               /\ detectLanguage code = detectionOf e
               /\ ltb lit_0_3 (entryConfidence e) = true.
Proof.
  unfold detectLanguage.
  destruct (falsy code || (length (trim code) =? 0)); [now left|].
  destruct (sortDetections (detect LANGUAGE_PATTERNS code))
    as [|best others] eqn:Hsorted; [now left|].
  destruct (ltb lit_0_3 (confidence best)) eqn:Hhigh; [|now left].
  right.
  assert (Hin : In best (map detectionOf LANGUAGE_PATTERNS)).
  { apply detect_candidates with (code := code);
      [exact catalog_not_global|].
    apply sortDetections_In. rewrite Hsorted. now left. }
  apply in_map_iff in Hin as [e [<- He]].
  exists e. repeat split; assumption.
Qed.

Lemma catalog_confidences :
  forallb (fun e => inUnitInterval (entryConfidence e)) LANGUAGE_PATTERNS
  = true.
Proof. vm_compute. reflexivity. Qed.

(** C7.  The confidence returned by [detectLanguage] lies between 0 and
    1, for every code; an input that is empty or made of white space only
    yields [noDetection], that is confidence 0 and no language.  The
    detector is a total function: no input makes it fail. *)
Theorem detectLanguage_confidence_bounds (code : jsstring) :
  inUnitInterval (confidence (detectLanguage code)) = true
  /\ (forallb isSpace code = true ->
      detectLanguage code = noDetection
      /\ language (detectLanguage code) = None
      /\ confidence (detectLanguage code) = zero).
Proof.
  split.
  - destruct (detectLanguage_cases code) as [->|[e [He [-> _]]]];
      [reflexivity|].
    cbn [detectionOf confidence].
    pose proof catalog_confidences as Hall.
    rewrite forallb_forall in Hall. now apply Hall.
  - intros Hblank.
    assert (H : detectLanguage code = noDetection).
    { unfold detectLanguage. rewrite (trim_blank code Hblank).
      cbn [length Nat.eqb]. rewrite orb_true_r. reflexivity. }
    rewrite H. repeat split.
Qed.

Lemma detectLanguage_confidence_bounds_witness :
  let blank := [32; 9; 10; 32]%N in
  forallb isSpace blank = true
  /\ detectLanguage blank = noDetection
  /\ detectLanguage [] = noDetection.
Proof.
  intros blank.
  assert (H : forallb isSpace blank = true) by reflexivity.
  split; [exact H|].
  split.
  - exact (proj1 (proj2 (detectLanguage_confidence_bounds blank) H)).
  - exact (proj1 (proj2 (detectLanguage_confidence_bounds []) eq_refl)).
Defined.

(** ** What the detector computes *)

Lemma confident_entries :
  map detectionOf
    (filter (fun e => ltb lit_0_3 (entryConfidence e)) LANGUAGE_PATTERNS)
  = [shellDetection].
Proof. vm_compute. reflexivity. Qed.

(** Every pattern of the catalog lacks the [g] flag, and only the shell
    pattern has a capture group: the confidence is 0.2 for fifteen
    languages and 0.4 for shell, so shell is the only language that
    [detectLanguage] can return. *)
Lemma detectLanguage_only_shell (code : jsstring) :
  detectLanguage code = noDetection \/ detectLanguage code = shellDetection.
Proof.
  destruct (detectLanguage_cases code) as [H|[e [He [Hd Hhigh]]]];
    [now left|right].
  rewrite Hd.
  assert (Hin : In (detectionOf e) [shellDetection]).
  { rewrite <- confident_entries. apply in_map, filter_In. now split. }
  destruct Hin as [<-|[]]. reflexivity.
Qed.

(** C1 (evaluated on the code).  The text [const x = 1; let y = 2;] holds
    two matches of the javascript pattern and no match of another
    pattern.  Counting matches gives javascript the confidence 0.4, above
    0.3, and the detector worded by the specification returns javascript.
    [detectLanguage] takes the length of the array of a match without the
    [g] flag, which is 1, gets the confidence 0.2 and returns no
    language. *)
Theorem detectLanguage_counts_groups_not_matches :
  let code := str "const x = 1; let y = 2;" in
  RegExp.test javascript code = true
  /\ matchCount javascript code = 2
  /\ matchLength javascript code = Some 1
  /\ detectLanguage code = noDetection
  /\ detectLanguage_spec code =
     {| language := Some "javascript"%string;
        confidence := mul (ofNat 2) lit_0_2 |}.
Proof. repeat split; vm_compute; reflexivity. Qed.

(** A shell script is detected, with the confidence 0.4 that comes from
    the capture group of the shell pattern. *)
Example detectLanguage_shell :
  detectLanguage (str "echo hello") = shellDetection.
Proof. vm_compute. reflexivity. Qed.

End DetectionFacts.

(* ===================================================================== *)
(** * Properties of the output formatter *)
(* ===================================================================== *)

Module FormattingFacts.
Import Errors FormattingService Reference.

Section WithRuntime.
Variable rt : Runtime.

Lemma highlightCode_returns code lang :
  exists r, highlightCode rt code lang = Ok r.
Proof.
  unfold highlightCode, try_catch, bind, ret.
  destruct (if falsy lang then Ok false else hljs_getLanguage rt lang)
    as [[|]|e]; eauto.
  - destruct (hljs_highlight rt code lang); eauto.
  - destruct (hljs_highlightAuto rt code); eauto.
Qed.

Lemma formatHTML_returns text :
  exists r, formatHTML rt text = Ok r.
Proof.
  unfold formatHTML, try_catch.
  match goal with |- context [match ?m with Ok _ => _ | Throw _ => _ end] =>
    destruct m end; eauto.
Qed.

Lemma formatHTML_renderer_failure text e :
  marked_parse rt text = Throw e -> formatHTML rt text = Ok text.
Proof. intros H. unfold formatHTML, bind. rewrite H. reflexivity. Qed.

Lemma formatHTML_rendered text html :
  marked_parse rt text = Ok html ->
  formatHTML rt text
  = Ok (match replaceRenderedBlocks rt (highlightedBlock rt) html with
        | Ok r => r
        | Throw _ => text
        end).
Proof.
  intros H. unfold formatHTML, bind, try_catch. rewrite H.
  change (fun matched lang code : jsstring =>
            match
              match highlightCode rt code lang with
              | Ok a =>
                  ret (str "<pre><code class=" ++ [dquote]
                       ++ str "language-" ++ lang ++ str " hljs"
                       ++ [dquote] ++ str ">" ++ a ++ str "</code></pre>")
              | Throw e => Throw e
              end
            with
            | Ok a => Ok a
            | Throw _ => ret matched
            end)
    with (highlightedBlock rt).
  destruct (replaceRenderedBlocks rt (highlightedBlock rt) html);
    reflexivity.
Qed.

Lemma highlightedBlock_rebuilds matched lang code :
  exists highlighted,
    highlightCode rt code lang = Ok highlighted
    /\ highlightedBlock rt matched lang code
       = Ok (codeBlock lang highlighted)
    /\ (highlighterFails rt code lang = true ->
        highlighted = escapeHtml code).
Proof.
  unfold highlightedBlock, highlighterFails, highlightCode, try_catch,
    bind, ret.
  destruct (if falsy lang then Ok false else hljs_getLanguage rt lang)
    as [[|]|e].
  - destruct (hljs_highlight rt code lang) as [v|e].
    + exists v. repeat split. discriminate.
    + exists (escapeHtml code). repeat split.
  - destruct (hljs_highlightAuto rt code) as [v|e].
    + exists v. repeat split. discriminate.
    + exists (escapeHtml code). repeat split.
  - exists (escapeHtml code). repeat split.
Qed.

(** C4 (amended).  With the format [Default], and with an empty text
    under every format, the input comes back unchanged.  Whatever the
    format, a failure of [formatOutput] is the [ProcessingError] that
    carries the requested format.  Under [Enhanced] and [Markdown] a
    non-empty text gets what [enhanceOutput] returns, and a failure of
    [enhanceOutput] makes [formatOutput] fail in that way.  Under [Html]
    [formatOutput] never fails: when the markdown renderer fails, the
    caller receives the input text as it was; when it returns, the caller
    receives the rendered text with its code blocks replaced, or the
    input text when the replacement fails; and the replacement of a block
    never fails: it is the block rebuilt around the highlighted code,
    which is the escaped code when the highlighter fails. *)
Theorem formatOutput_failures (text : jsstring) (format : OutputFormat) :
  formatOutput rt text Default = Ok text
  /\ (forall e, formatOutput rt text format = Throw e ->
                e = ProcessingError "Failed to format output"
                      "FORMAT_ERROR" format)
  /\ (falsy text = false -> format = Enhanced \/ format = Markdown ->
      throws (enhanceOutput rt text) = true ->
      formatOutput rt text format
      = Throw (ProcessingError "Failed to format output"
                 "FORMAT_ERROR" format))
  /\ (exists r, formatOutput rt text Html = Ok r)
  /\ (throws (marked_parse rt text) = true ->
      formatOutput rt text Html = Ok text)
  /\ (falsy text = true -> formatOutput rt text format = Ok text)
  /\ (forall r, falsy text = false -> format = Enhanced \/ format = Markdown ->
      enhanceOutput rt text = Ok r -> formatOutput rt text format = Ok r)
  /\ (forall html, falsy text = false -> marked_parse rt text = Ok html ->
      formatOutput rt text Html
      = Ok (match replaceRenderedBlocks rt (highlightedBlock rt) html with
            | Ok r => r
            | Throw _ => text
            end))
  /\ (forall matched lang code,
      exists highlighted,
        highlightCode rt code lang = Ok highlighted
        /\ highlightedBlock rt matched lang code
           = Ok (codeBlock lang highlighted)
        /\ (highlighterFails rt code lang = true ->
            highlighted = escapeHtml code)).
Proof.
  refine (conj _ (conj _ (conj _ (conj _ (conj _ (conj _ (conj _
            (conj _ _)))))))).
  - unfold formatOutput. destruct (falsy text); reflexivity.
  - intros e. unfold formatOutput, try_catch.
    match goal with |- context [match ?m with Ok _ => _ | Throw _ => _ end] =>
      destruct m end; [discriminate|].
    intros H. now inversion H.
  - intros Hne Hfmt Hfail. unfold formatOutput. rewrite Hne.
    unfold formatMarkdown.
    destruct (enhanceOutput rt text); [discriminate|].
    destruct Hfmt as [->| ->]; reflexivity.
  - unfold formatOutput. destruct (falsy text); [eexists; reflexivity|].
    destruct (formatHTML_returns text) as [r ->]. eexists; reflexivity.
  - intros Hfail. unfold formatOutput.
    destruct (falsy text); [reflexivity|].
    destruct (marked_parse rt text) as [|e] eqn:Hparse; [discriminate|].
    rewrite (formatHTML_renderer_failure text Hparse). reflexivity.
  - intros Hempty. unfold formatOutput. rewrite Hempty. reflexivity.
  - intros r Hne Hfmt Hok. unfold formatOutput. rewrite Hne.
    unfold formatMarkdown. rewrite Hok.
    destruct Hfmt as [->| ->]; reflexivity.
  - intros html Hne Hparse. unfold formatOutput. rewrite Hne.
    rewrite (formatHTML_rendered text Hparse). reflexivity.
  - apply highlightedBlock_rebuilds.
Qed.
End WithRuntime.

(** C4 (as claimed, refuted).  The renderer fails on the text [# Title]
    under the format [Html]; [formatOutput] does not fail: the caller
    receives the unformatted input. *)
Lemma formatOutput_html_swallows_failure :
  throws (marked_parse brokenRenderer (str "# Title")) = true
  /\ formatOutput brokenRenderer (str "# Title") Html = Ok (str "# Title")
  /\ throws (formatOutput brokenRenderer (str "# Title") Html) = false.
Proof. repeat split. Qed.

(** A renderer failure under [Html] gives the input back; a failing
    [replace] pass under [Enhanced] and [Markdown] gives the
    [ProcessingError] with that format; an empty text comes back even
    from the runtime whose pass fails; a failing highlighter leaves the
    block with the escaped code. *)
Lemma formatOutput_failures_witness :
  formatOutput brokenRenderer (str "# Title") Html = Ok (str "# Title")
  /\ formatOutput brokenRenderer (str "# Title") Default = Ok (str "# Title")
  /\ formatOutput brokenFences (str "# Title") Enhanced
     = Throw (ProcessingError "Failed to format output" "FORMAT_ERROR"
                Enhanced)
  /\ formatOutput brokenFences (str "# Title") Markdown
     = Throw (ProcessingError "Failed to format output" "FORMAT_ERROR"
                Markdown)
  /\ formatOutput brokenFences [] Enhanced = Ok []
  /\ formatOutput brokenRenderer (str "# Title") Enhanced
     = Ok (str "# Title")
  /\ formatOutput brokenHighlighter (str "# Title") Html
     = Ok (codeBlock (str "js") (str "1 &amp;lt; 2")).
Proof.
  destruct (formatOutput_failures brokenRenderer (str "# Title") Html)
    as (Hdefault & _ & _ & _ & Hhtml & _).
  destruct (formatOutput_failures brokenFences (str "# Title") Enhanced)
    as (_ & _ & Henhanced & _).
  destruct (formatOutput_failures brokenFences (str "# Title") Markdown)
    as (_ & _ & Hmarkdown & _).
  destruct (formatOutput_failures brokenFences [] Enhanced)
    as (_ & _ & _ & _ & _ & Hempty & _).
  destruct (formatOutput_failures brokenRenderer (str "# Title") Enhanced)
    as (_ & _ & _ & _ & _ & _ & Hreturns & _).
  destruct (formatOutput_failures brokenHighlighter (str "# Title") Html)
    as (_ & _ & _ & _ & _ & _ & _ & Hrendered & Hblock).
  split; [apply Hhtml; reflexivity|].
  split; [exact Hdefault|].
  split; [apply Henhanced; [reflexivity|now left|reflexivity]|].
  split; [apply Hmarkdown; [reflexivity|now right|reflexivity]|].
  split; [apply Hempty; reflexivity|].
  split; [apply Hreturns; [reflexivity|now left|reflexivity]|].
  rewrite (Hrendered renderedBlock); [|reflexivity|reflexivity].
  destruct (Hblock renderedBlock (str "js") renderedCode)
    as (highlighted & _ & Hbuilt & Hescaped).
  change (replaceRenderedBlocks brokenHighlighter
            (highlightedBlock brokenHighlighter) renderedBlock)
    with (highlightedBlock brokenHighlighter renderedBlock (str "js")
            renderedCode).
  rewrite Hbuilt, (Hescaped eq_refl). reflexivity.
Defined.

End FormattingFacts.

(* ===================================================================== *)
(** * Properties of the chunking service *)
(* ===================================================================== *)

Module ChunkingFacts.
Import Constants Errors ChunkingService.

Lemma concat_segments (m : nat) (text : jsstring) :
  concat (segments (S m) text) = text.
Proof.
  funelim (segments (S m) text); simp segments; [reflexivity|].
  cbn [concat]. rewrite H. apply firstn_skipn.
Qed.

Lemma skipn_prefix (p s : jsstring) : skipn (length p) (p ++ s) = s.
Proof. induction p as [|x p IH]; [reflexivity|exact IH]. Qed.

Lemma reassemble_assemble (segs : list jsstring) :
  forall index previous,
    reassemble (assemble index previous segs) = concat segs.
Proof.
  unfold reassemble.
  induction segs as [|seg rest IH]; intros index previous; [reflexivity|].
  cbn [assemble map concat]. rewrite IH. f_equal.
  unfold stripOverlap. cbn [contextPrefix content].
  destruct previous as [prev|]; cbn [option_map]; [|reflexivity].
  apply skipn_prefix.
Qed.

(** C2.  For every text and every [maxSize] of at least [MIN_CHUNK_SIZE],
    [chunkText] returns a sequence of chunks, and the concatenation of
    the chunks, each without its [contextPrefix], is the text. *)
Theorem chunkText_roundtrip (text : jsstring) (maxSize : nat) :
  (MIN_CHUNK_SIZE <= Z.of_nat maxSize)%Z ->
  exists chunks,
    chunkText text maxSize = Ok chunks /\ reassemble chunks = text.
Proof.
  intros Hmin. unfold MIN_CHUNK_SIZE in Hmin.
  destruct maxSize as [|m]; [lia|].
  eexists. split; [reflexivity|].
  rewrite reassemble_assemble. apply concat_segments.
Qed.

Lemma chunkText_roundtrip_witness :
  let text := repeat (chr "x") 2500 in
  (MIN_CHUNK_SIZE <= Z.of_nat 1000)%Z
  /\ exists chunks,
       chunkText text 1000 = Ok chunks /\ reassemble chunks = text.
Proof.
  intros text.
  assert (H : (MIN_CHUNK_SIZE <= Z.of_nat 1000)%Z)
    by (vm_compute; discriminate).
  split; [exact H|exact (chunkText_roundtrip text 1000 H)].
Defined.

(** The edge cases of the specification, on a small size: the empty text
    gives no chunk; a text shorter than [maxSize] gives one chunk without
    overlap; the indices count from 0. *)
Example chunkText_edge_cases :
  chunkText [] 4 = Ok []
  /\ chunkText (str "abc") 4
     = Ok [{| content := str "abc"; index := 0; hasContext := false;
              contextPrefix := None |}]
  /\ (exists chunks, chunkText (str "abcdefghij") 4 = Ok chunks
                     /\ map index chunks = [0; 1; 2]
                     /\ map hasContext chunks = [false; true; true]).
Proof.
  repeat split. eexists. split; [reflexivity|]. split; reflexivity.
Qed.

End ChunkingFacts.

(* ===================================================================== *)
(** * Further properties of the validation service *)
(* ===================================================================== *)

Module QuoteFacts.
Import RegExp Constants ValidationService Scanners Scanners2.

Lemma matchAt_quotePattern before after :
  matchAt (RegExp.mk (source unescapedQuote) false false false) (before, after)
  = match after with
    | c :: rest =>
        if (dquote =? c)%N && negb (afterBackslash before)
        then Some (c :: before, rest) else None
    | [] => None
    end.
Proof. exact (ValidationFacts.matchAt_unescapedQuote before after). Qed.

Lemma search_quotePattern after : forall before,
  match search (RegExp.mk (source unescapedQuote) false false false)
          before after with
  | Some _ => true
  | None => false
  end = hasUnescapedFrom before after.
Proof.
  induction after as [|c rest IH]; intros before.
  - cbn [search]. rewrite matchAt_quotePattern. reflexivity.
  - cbn [search hasUnescapedFrom]. rewrite matchAt_quotePattern.
    destruct ((dquote =? c)%N && negb (afterBackslash before));
      [reflexivity|].
    cbn [orb]. apply IH.
Qed.

Lemma hasUnescapedDoubleQuotes_scan text :
  hasUnescapedDoubleQuotes text = hasUnescapedFrom [] text.
Proof. unfold hasUnescapedDoubleQuotes, RegExp.test. apply search_quotePattern. Qed.

Lemma hasUnescapedFrom_context s : forall b1 b2,
  afterBackslash b1 = afterBackslash b2 ->
  hasUnescapedFrom b1 s = hasUnescapedFrom b2 s.
Proof.
  destruct s as [|c rest]; intros b1 b2 H; [reflexivity|].
  cbn [hasUnescapedFrom]. rewrite H. f_equal.
  clear H. revert c b1 b2.
  induction rest as [|d rest IH]; intros c b1 b2; [reflexivity|].
  cbn [hasUnescapedFrom afterBackslash]. f_equal. apply IH.
Qed.

Lemma escapeFrom_clean s : forall before,
  hasUnescapedFrom before (escapeFrom before s) = false.
Proof.
  induction s as [|c rest IH]; intros before; [reflexivity|].
  cbn [escapeFrom].
  destruct ((dquote =? c)%N && negb (afterBackslash before)) eqn:E.
  - apply andb_true_iff in E as [Hq _]. apply N.eqb_eq in Hq. subst c.
    change (hasUnescapedFrom before
              ([backslash; dquote] ++ escapeFrom (dquote :: before) rest))
      with (hasUnescapedFrom (dquote :: backslash :: before)
              (escapeFrom (dquote :: before) rest)).
    rewrite (hasUnescapedFrom_context _ (dquote :: backslash :: before)
               (dquote :: before)) by reflexivity.
    apply IH.
  - cbn [app hasUnescapedFrom]. rewrite E. cbn [orb]. apply IH.
Qed.

Lemma escapeFrom_length s : forall before,
  length (escapeFrom before s) = length s + countUnescapedFrom before s.
Proof.
  induction s as [|c rest IH]; intros before; [reflexivity|].
  cbn [escapeFrom countUnescapedFrom].
  rewrite length_app, IH.
  destruct ((dquote =? c)%N && negb (afterBackslash before)); cbn; lia.
Qed.

Lemma countUnescapedFrom_zero s : forall before,
  countUnescapedFrom before s = 0 <-> hasUnescapedFrom before s = false.
Proof.
  induction s as [|c rest IH]; intros before; [cbn; tauto|].
  cbn [countUnescapedFrom hasUnescapedFrom].
  destruct ((dquote =? c)%N && negb (afterBackslash before)); cbn [orb].
  - split; [lia|discriminate].
  - cbn. apply IH.
Qed.

Lemma escapeFrom_unchanged s : forall before,
  hasUnescapedFrom before s = false -> escapeFrom before s = s.
Proof.
  induction s as [|c rest IH]; intros before H; [reflexivity|].
  cbn [hasUnescapedFrom] in H. apply orb_false_iff in H as [Hc Hrest].
  cbn [escapeFrom]. rewrite Hc. cbn [app]. f_equal. now apply IH.
Qed.

Lemma countUnescapedFrom_bound s : forall before,
  countUnescapedFrom before s <= length s.
Proof.
  induction s as [|c rest IH]; intros before; [reflexivity|].
  cbn [countUnescapedFrom length]. specialize (IH (c :: before)).
  destruct ((dquote =? c)%N && negb (afterBackslash before)); lia.
Qed.

Lemma hasUnescapedFrom_split s : forall before,
  hasUnescapedFrom before s = true <->
  exists pre post,
    s = pre ++ dquote :: post /\ afterBackslash (rev pre ++ before) = false.
Proof.
  induction s as [|c rest IH]; intros before.
  - split; [discriminate|]. intros (pre & post & H & _).
    destruct pre; discriminate.
  - cbn [hasUnescapedFrom]. rewrite orb_true_iff, andb_true_iff, IH.
    rewrite N.eqb_eq, negb_true_iff. split.
    + intros [[<- Hb]|(pre & post & -> & Hb)].
      * exists [], rest. split; [reflexivity|exact Hb].
      * exists (c :: pre), post. split; [reflexivity|].
        cbn [rev]. rewrite <- app_assoc. exact Hb.
    + intros (pre & post & Heq & Hb). destruct pre as [|x pre].
      * injection Heq as -> ->. left. split; [reflexivity|exact Hb].
      * injection Heq as -> ->. right. exists pre, post.
        split; [reflexivity|]. cbn [rev] in Hb.
        rewrite <- app_assoc in Hb. exact Hb.
Qed.

(** X1.  [hasUnescapedDoubleQuotes] answers true exactly when the text
    holds a double quote that stands first or whose predecessor is not a
    backslash. *)
Theorem hasUnescapedDoubleQuotes_meaning (text : jsstring) :
  hasUnescapedDoubleQuotes text = true <->
  exists pre post,
    text = pre ++ dquote :: post
    /\ (pre = [] \/ exists pre' x, pre = pre' ++ [x] /\ x <> backslash).
Proof.
  rewrite hasUnescapedDoubleQuotes_scan, hasUnescapedFrom_split.
  split; intros (pre & post & -> & H); exists pre, post;
    (split; [reflexivity|]).
  - rewrite app_nil_r in H.
    destruct (rev pre) as [|x r] eqn:Hrev.
    + left. apply (f_equal (@rev char)) in Hrev.
      now rewrite rev_involutive in Hrev.
    + right. exists (rev r), x. split.
      * apply (f_equal (@rev char)) in Hrev.
        now rewrite rev_involutive in Hrev.
      * cbn [afterBackslash] in H. apply N.eqb_neq in H. congruence.
  - rewrite app_nil_r. destruct H as [->|(pre' & x & -> & Hx)];
      [reflexivity|].
    rewrite rev_app_distr. cbn [rev app afterBackslash].
    apply N.eqb_neq. congruence.
Qed.

Lemma fixDoubleQuotes_clean (text : jsstring) :
  hasUnescapedDoubleQuotes (fixDoubleQuotes text) = false.
Proof.
  rewrite hasUnescapedDoubleQuotes_scan,
    ValidationFacts.fixDoubleQuotes_escapeFrom.
  apply escapeFrom_clean.
Qed.

Lemma fixDoubleQuotes_not_shorter (text : jsstring) :
  length text <= length (fixDoubleQuotes text).
Proof.
  rewrite ValidationFacts.fixDoubleQuotes_escapeFrom, escapeFrom_length. lia.
Qed.

(** X2.  After [fixDoubleQuotes] the detector [hasUnescapedDoubleQuotes]
    finds nothing, whatever the text was. *)
Theorem fixDoubleQuotes_clears_detector (text : jsstring) :
  hasUnescapedDoubleQuotes (fixDoubleQuotes text) = false.
Proof. exact (fixDoubleQuotes_clean text). Qed.

(** X3.  [fixDoubleQuotes] returns its argument unchanged exactly when
    [hasUnescapedDoubleQuotes] finds nothing in it; it never shortens the
    text and never makes it more than twice as long. *)
Theorem fixDoubleQuotes_fixed_points (text : jsstring) :
  (fixDoubleQuotes text = text <-> hasUnescapedDoubleQuotes text = false)
  /\ length text <= length (fixDoubleQuotes text) <= 2 * length text.
Proof.
  rewrite hasUnescapedDoubleQuotes_scan,
    ValidationFacts.fixDoubleQuotes_escapeFrom.
  pose proof (escapeFrom_length text []) as Hlen.
  pose proof (countUnescapedFrom_bound text []) as Hbound.
  split; [split|lia].
  - intros Heq. apply countUnescapedFrom_zero.
    rewrite Heq in Hlen. lia.
  - apply escapeFrom_unchanged.
Qed.

End QuoteFacts.

Module InputValidationFacts.
Import RegExp Constants Errors ValidationService Complexity InputValidation.

Lemma generateBreakdownSuggestion_head text :
  exists rest,
    generateBreakdownSuggestion text
    = str "This looks like a complex task. Consider breaking it down:"
      ++ newline :: rest.
Proof.
  unfold generateBreakdownSuggestion.
  repeat match goal with
         | |- context [if RegExp.test ?p text then _ else _] =>
             destruct (RegExp.test p text)
         end;
    eexists; vm_compute; reflexivity.
Qed.

Lemma suggestTaskBreakdown_nonempty text s :
  suggestTaskBreakdown text = Some s -> falsy s = false.
Proof.
  unfold suggestTaskBreakdown.
  destruct (_ && _); [|discriminate].
  intros [= <-]. destruct (generateBreakdownSuggestion_head text) as [r ->].
  reflexivity.
Qed.

Lemma checkInputSize_suggestion_nonempty text s :
  ValidationService.suggestion (checkInputSize text) = Some s -> falsy s = false.
Proof.
  unfold checkInputSize.
  destruct (MAX_SAFE_INPUT_SIZE <? Z.of_nat (length text))%Z;
    [|discriminate].
  intros [= <-]. reflexivity.
Qed.

Lemma validateInput_nonempty (text : jsstring) :
  text <> [] ->
  exists r,
    validateInput text = Ok r
    /\ InputValidation.isLarge r = ValidationService.isLarge (checkInputSize text)
    /\ hasDoubleQuotes r = hasUnescapedDoubleQuotes text
    /\ (needsBreakdown r = true <-> suggestTaskBreakdown text <> None)
    /\ length (warnings r)
       = (if InputValidation.isLarge r then 1 else 0)
         + (if hasDoubleQuotes r then 1 else 0)
         + (if needsBreakdown r then 1 else 0)
    /\ isValid r
       = negb (InputValidation.isLarge r || hasDoubleQuotes r
               || needsBreakdown r).
Proof.
  intros Hne. unfold validateInput.
  destruct text as [|c rest]; [contradiction|]. cbn [falsy].
  eexists. split; [reflexivity|].
  cbn [InputValidation.isLarge hasDoubleQuotes needsBreakdown warnings isValid].
  set (text := c :: rest).
  assert (Htruthy : truthy (suggestTaskBreakdown text)
                    = match suggestTaskBreakdown text with
                      | Some _ => true | None => false end).
  { destruct (suggestTaskBreakdown text) as [s|] eqn:E; [|reflexivity].
    cbn [truthy]. now rewrite (suggestTaskBreakdown_nonempty text E). }
  rewrite Htruthy.
  repeat split.
  - intros H. destruct (suggestTaskBreakdown text); [discriminate|discriminate].
  - destruct (suggestTaskBreakdown text); [reflexivity|contradiction].
  - destruct (ValidationService.isLarge (checkInputSize text)),
      (hasUnescapedDoubleQuotes text), (suggestTaskBreakdown text);
      reflexivity.
  - destruct (ValidationService.isLarge (checkInputSize text)),
      (hasUnescapedDoubleQuotes text), (suggestTaskBreakdown text);
      reflexivity.
Qed.


(** X4.  [validateInput] fails, with a [ValidationError], exactly on the
    empty string.  On any other text it returns a report whose three flags
    are the answers of [checkInputSize], [hasUnescapedDoubleQuotes] and
    [suggestTaskBreakdown], which holds one warning per raised flag, and
    whose [isValid] is true exactly when no flag is raised. *)
Theorem validateInput_report (text : jsstring) :
  (text = [] ->
   validateInput text
   = Throw (ValidationError "Invalid input: text must be a non-empty string"))
  /\ (text <> [] ->
      exists r,
        validateInput text = Ok r
        /\ InputValidation.isLarge r = ValidationService.isLarge (checkInputSize text)
        /\ hasDoubleQuotes r = hasUnescapedDoubleQuotes text
        /\ (needsBreakdown r = true <-> suggestTaskBreakdown text <> None)
        /\ length (warnings r)
           = (if InputValidation.isLarge r then 1 else 0)
             + (if hasDoubleQuotes r then 1 else 0)
             + (if needsBreakdown r then 1 else 0)
        /\ isValid r
           = negb (InputValidation.isLarge r || hasDoubleQuotes r
                   || needsBreakdown r)).
Proof.
  split; [intros ->; reflexivity|apply validateInput_nonempty].
Qed.

Lemma validateInput_report_witness :
  let text := str "Hello " ++ [dquote] ++ str "world" ++ [dquote] in
  exists r,
    validateInput text = Ok r
    /\ hasDoubleQuotes r = true
    /\ isValid r = false
    /\ length (warnings r) = 1.
Proof.
  intros text.
  assert (Hne : text <> []) by discriminate.
  destruct (proj2 (validateInput_report text) Hne)
    as (r & Hr & Hl & Hq & Hb & Hw & Hv).
  exists r. split; [exact Hr|].
  assert (Hq' : hasDoubleQuotes r = true) by (rewrite Hq; reflexivity).
  assert (Hl' : InputValidation.isLarge r = false) by (rewrite Hl; reflexivity).
  assert (Hb' : needsBreakdown r = false).
  { destruct (needsBreakdown r); [|reflexivity].
    exfalso. apply (proj1 Hb eq_refl). reflexivity. }
  rewrite Hl', Hq', Hb' in Hw, Hv.
  repeat split; assumption.
Defined.

Lemma suggestTaskBreakdown_short text :
  (Z.of_nat (length text) <= COMPLEXITY_THRESHOLD)%Z ->
  suggestTaskBreakdown text = None.
Proof.
  intros H. unfold suggestTaskBreakdown.
  apply Z.ltb_ge in H. rewrite H, andb_false_r. reflexivity.
Qed.

(** X5.  On a non-empty text of at most [COMPLEXITY_THRESHOLD] (2000)
    characters neither the size warning nor the breakdown warning can
    appear, whatever the wording of the text: the report is decided by the
    double quotes alone and carries no suggestion. *)
Theorem validateInput_short_text (text : jsstring) :
  text <> [] ->
  (Z.of_nat (length text) <= COMPLEXITY_THRESHOLD)%Z ->
  suggestTaskBreakdown text = None
  /\ validateInput text
     = Ok {| isValid := negb (hasUnescapedDoubleQuotes text);
             InputValidation.isLarge := false;
             hasDoubleQuotes := hasUnescapedDoubleQuotes text;
             needsBreakdown := false;
             InputValidation.suggestion := None;
             warnings :=
               if hasUnescapedDoubleQuotes text
               then [str "Contains unescaped double quotes that may cause errors"]
               else [] |}.
Proof.
  intros Hne Hshort.
  pose proof (suggestTaskBreakdown_short text Hshort) as Hnone.
  split; [exact Hnone|].
  unfold validateInput. destruct text as [|c rest]; [contradiction|].
  cbn [falsy]. rewrite Hnone.
  assert (Hsmall : checkInputSize (c :: rest)
                   = {| ValidationService.isLarge := false;
                        ValidationService.suggestion := None |}).
  { unfold checkInputSize.
    assert (E : (MAX_SAFE_INPUT_SIZE <? Z.of_nat (length (c :: rest)))%Z
                = false).
    { apply Z.ltb_ge. unfold COMPLEXITY_THRESHOLD, MAX_SAFE_INPUT_SIZE in *.
      lia. }
    now rewrite E. }
  rewrite Hsmall.
  cbn [ValidationService.isLarge ValidationService.suggestion truthy orElse
         app sizeWarning].
  destruct (hasUnescapedDoubleQuotes (c :: rest)); reflexivity.
Qed.

(** The documentation task of the unit tests: 78 characters. *)
Lemma validateInput_short_text_witness :
  let text := str "Write complete documentation for all modules with examples and API references" in
  suggestTaskBreakdown text = None
  /\ exists r, validateInput text = Ok r /\ needsBreakdown r = false
               /\ isValid r = true.
Proof.
  intros text.
  assert (Hne : text <> []) by discriminate.
  assert (Hshort : (Z.of_nat (length text) <= COMPLEXITY_THRESHOLD)%Z)
    by (vm_compute; discriminate).
  destruct (validateInput_short_text Hne Hshort) as [Hnone Hreport].
  split; [exact Hnone|].
  eexists. split; [exact Hreport|]. split; reflexivity.
Defined.

(** X6.  A non-empty text that went through [fixDoubleQuotes] is never
    reported for double quotes: [validateInput] returns a report without
    that flag, valid unless the text is large or complex. *)
Theorem validateInput_after_fixDoubleQuotes (text : jsstring) :
  text <> [] ->
  exists r,
    validateInput (fixDoubleQuotes text) = Ok r
    /\ hasDoubleQuotes r = false
    /\ isValid r = negb (InputValidation.isLarge r || needsBreakdown r).
Proof.
  intros Hne.
  assert (Hfixed : fixDoubleQuotes text <> []).
  { pose proof (QuoteFacts.fixDoubleQuotes_not_shorter text) as Hlen.
    destruct text; [contradiction|].
    intros E. rewrite E in Hlen. cbn in Hlen. lia. }
  destruct (validateInput_nonempty Hfixed)
    as (r & Hr & _ & Hq & _ & _ & Hv).
  exists r. split; [exact Hr|].
  rewrite QuoteFacts.fixDoubleQuotes_clean in Hq.
  split; [exact Hq|].
  rewrite Hv, Hq. now rewrite orb_false_r.
Qed.

Lemma validateInput_after_fixDoubleQuotes_witness :
  let text := str "Hello " ++ [dquote] ++ str "world" ++ [dquote] in
  exists r,
    validateInput (fixDoubleQuotes text) = Ok r /\ hasDoubleQuotes r = false.
Proof.
  intros text.
  destruct (@validateInput_after_fixDoubleQuotes text ltac:(discriminate))
    as (r & Hr & Hq & _).
  exists r. split; assumption.
Defined.

End InputValidationFacts.

Module PathFacts.
Import ValidationService.

Lemma startsWith_prefix t : forall s,
  startsWith t s = true <-> exists post, s = t ++ post.
Proof.
  induction t as [|x t IH]; intros s.
  - cbn. split; [intros _; now exists s|reflexivity].
  - destruct s as [|y s]; cbn [startsWith].
    + split; [discriminate|]. intros [post H]. discriminate.
    + rewrite andb_true_iff, N.eqb_eq, IH. split.
      * intros [-> [post ->]]. now exists post.
      * intros [post [= -> ->]]. split; [reflexivity|now exists post].
Qed.

Lemma includes_infix s : forall t,
  includes s t = true <-> exists pre post, s = pre ++ t ++ post.
Proof.
  induction s as [|c s IH]; intros t.
  - cbn [includes]. rewrite orb_false_r, startsWith_prefix. split.
    + intros [post H]. exists [], post. exact H.
    + intros (pre & post & H). destruct pre; [now exists post|discriminate].
  - cbn [includes]. rewrite orb_true_iff, startsWith_prefix, IH. split.
    + intros [[post H]|(pre & post & ->)].
      * exists [], post. exact H.
      * now exists (c :: pre), post.
    + intros (pre & post & H). destruct pre as [|x pre].
      * left. now exists post.
      * right. injection H as -> ->. now exists pre, post.
Qed.

(** X7.  [validateFilePath] accepts a path exactly when it is not empty,
    holds no two consecutive dots anywhere and holds no tilde anywhere. *)
Theorem validateFilePath_accepts (path : jsstring) :
  validateFilePath path = true <->
  path <> []
  /\ (forall pre post, path <> pre ++ str ".." ++ post)
  /\ ~ In (chr "~") path.
Proof.
  unfold validateFilePath.
  destruct path as [|c rest]; cbn [falsy].
  - split; [discriminate|]. intros [H _]. contradiction.
  - set (path := c :: rest).
    destruct (includes path (str "..")) eqn:Edots.
    + cbn [orb]. split; [discriminate|]. intros (_ & Hdots & _).
      apply includes_infix in Edots as (pre & post & E).
      exfalso. exact (Hdots pre post E).
    + cbn [orb]. destruct (includes path (str "~")) eqn:Etilde.
      * split; [discriminate|]. intros (_ & _ & Hnot). exfalso. apply Hnot.
        apply includes_infix in Etilde as (pre & post & ->).
        apply in_or_app. right. now left.
      * split; [|reflexivity]. intros _.
        split; [discriminate|]. split.
        -- intros pre post E.
           assert (includes path (str "..") = true)
             by (apply includes_infix; now exists pre, post).
           congruence.
        -- intros Hin. apply in_split in Hin as (pre & post & E).
           assert (includes path (str "~") = true)
             by (apply includes_infix; now exists pre, post).
           congruence.
Qed.

(** The unit tests of [validateFilePath]. *)
Example validateFilePath_tests :
  validateFilePath (str "src/services/ValidationService.ts") = true
  /\ validateFilePath (str "../../../etc/passwd") = false
  /\ validateFilePath (str "~/secret/file.txt") = false
  /\ validateFilePath [] = false
  /\ validateFilePath (str "notes..final.txt") = false.
Proof. repeat split. Qed.

End PathFacts.

Module WebviewFacts.
Import Webview.

Lemma sameString_eq a : forall b, sameString a b = true <-> a = b.
Proof.
  induction a as [|x a IH]; intros [|y b]; cbn [sameString];
    try (split; [discriminate|discriminate]); [tauto|].
  rewrite andb_true_iff, N.eqb_eq, IH. split.
  - intros [-> ->]. reflexivity.
  - intros [= -> ->]. now split.
Qed.

Lemma existsb_sameString s l :
  existsb (sameString s) l = true <-> In s l.
Proof.
  rewrite existsb_exists. split.
  - intros (x & Hin & E). apply sameString_eq in E. now subst.
  - intros H. exists s. split; [exact H|]. now apply sameString_eq.
Qed.

Ltac refute := let H := fresh in intros H; discriminate H.

(** X8.  [validateWebviewMessage] accepts a value exactly when it is an
    object whose [command] property is a string of the whitelist.  Every
    accepted command belongs to the type [WebviewMessageCommand]; the two
    members [updateStatus] and [updateMetrics] of that type are rejected;
    [null], [undefined] and the primitive values are rejected. *)
Theorem validateWebviewMessage_accepts (message : JSValue) :
  (validateWebviewMessage message = true <->
   exists properties command,
     message = VObject properties
     /\ getProperty properties (str "command") = VString command
     /\ In command allowedCommands)
  /\ (validateWebviewMessage message = true ->
      exists command,
        member message (str "command") = VString command
        /\ In command WebviewMessageCommand
        /\ command <> str "updateStatus"
        /\ command <> str "updateMetrics")
  /\ (match message with VObject _ => False | _ => True end ->
      validateWebviewMessage message = false).
Proof.
  assert (Hiff : validateWebviewMessage message = true <->
                 exists properties command,
                   message = VObject properties
                   /\ getProperty properties (str "command") = VString command
                   /\ In command allowedCommands).
  { unfold validateWebviewMessage. split.
    - destruct message as [| |b|n|s|properties];
        cbn [isFalsy typeOf isObjectType negb orb member falsy];
        [ refute | refute | destruct b; refute
        | destruct n; refute | destruct s; refute | ].
      destruct (getProperty properties (str "command")) as [| |b|n|s|o] eqn:E;
        cbn [isFalsy typeOf isStringType negb orb falsy];
        [ refute | refute | destruct b; refute
        | destruct n; refute | | refute ].
      destruct s as [|c s]; [refute|]. cbn [falsy orb negb includesValue].
      intros H. exists properties, (c :: s).
      split; [reflexivity|]. split; [exact E|].
      now apply existsb_sameString.
    - intros (properties & command & -> & Hget & Hin).
      cbn [isFalsy typeOf isObjectType negb orb member]. rewrite Hget.
      assert (Hne : falsy command = false).
      { destruct command; [|reflexivity].
        exfalso. revert Hin. vm_compute. intuition discriminate. }
      cbn [isFalsy typeOf isStringType negb]. rewrite Hne. cbn [orb].
      now apply existsb_sameString. }
  split; [exact Hiff|]. split.
  - intros H. apply Hiff in H as (properties & command & -> & Hget & Hin).
    exists command. cbn [member]. split; [exact Hget|].
    unfold allowedCommands in Hin. cbn [In] in Hin.
    repeat (destruct Hin as [<-|Hin];
            [repeat split; (vm_compute; tauto) || discriminate|]).
    contradiction.
  - destruct message as [| |b|n|s|properties]; intros H;
      unfold validateWebviewMessage; cbn;
      [ reflexivity | reflexivity | destruct b; reflexivity
      | destruct n; reflexivity | destruct s; reflexivity | contradiction ].
Qed.

Lemma validateWebviewMessage_accepts_witness :
  validateWebviewMessage
    (VObject [(str "data", VNumber Number.one);
              (str "command", VString (str "refreshDashboard"))]) = true
  /\ validateWebviewMessage
       (VObject [(str "command", VString (str "updateStatus"))]) = false
  /\ validateWebviewMessage VNull = false
  /\ validateWebviewMessage (VString (str "string message")) = false.
Proof.
  split.
  - apply (proj1 (validateWebviewMessage_accepts _)).
    eexists _, _. split; [reflexivity|]. split; [reflexivity|].
    vm_compute. tauto.
  - split; [reflexivity|]. split.
    + apply (proj2 (proj2 (validateWebviewMessage_accepts VNull))). exact I.
    + apply (proj2 (proj2 (validateWebviewMessage_accepts (VString _)))).
      exact I.
Defined.

End WebviewFacts.

(* ===================================================================== *)
(** * Further properties of the two escaping functions *)
(* ===================================================================== *)

Module EscapingFacts.
Import ValidationService FormattingService Scanners Scanners2.

Lemma containsAny_flat_map unsafe (f : char -> jsstring) s :
  (forall x, containsAny unsafe (f x) = false) ->
  containsAny unsafe (flat_map f s) = false.
Proof.
  intros Hf. unfold containsAny in *.
  induction s as [|x s IH]; [reflexivity|].
  cbn [flat_map]. rewrite existsb_app.
  apply orb_false_iff. split; [apply Hf|exact IH].
Qed.

Ltac classify x :=
  repeat match goal with
         | |- context [(x =? ?n)%N] =>
             destruct (N.eqb_spec x n); [subst x; vm_compute; reflexivity|]
         end.

Lemma entityOf_safe x :
  containsAny [60; 62; 34; 39]%N (entityOf (str "&#039;") x) = false.
Proof.
  unfold entityOf. classify x.
  unfold containsAny. cbn [existsb].
  repeat match goal with
         | H : x <> ?n |- context [(x =? ?n)%N] =>
             rewrite (proj2 (N.eqb_neq x n) H)
         end.
  reflexivity.
Qed.

Lemma displayEntity_safe x :
  containsAny [60; 62; 34; 39; 47]%N (displayEntity x) = false.
Proof.
  unfold displayEntity. classify x.
  unfold containsAny. cbn [existsb].
  repeat match goal with
         | H : x <> ?n |- context [(x =? ?n)%N] =>
             rewrite (proj2 (N.eqb_neq x n) H)
         end.
  reflexivity.
Qed.

Lemma escapeHtml_safe (text : jsstring) :
  containsAny [60; 62; 34; 39]%N (escapeHtml text) = false.
Proof.
  rewrite ValidationFacts.escapeHtml_flat_map.
  apply containsAny_flat_map, entityOf_safe.
Qed.

(** X9.  The result of [escapeHtml] holds no less-than sign, greater-than
    sign, double quote or single quote; the result of [sanitizeText] holds
    none of these and no slash. *)
Theorem escaped_text_is_safe (text : jsstring) :
  containsAny [60; 62; 34; 39]%N (escapeHtml text) = false
  /\ containsAny [60; 62; 34; 39; 47]%N (sanitizeText text) = false.
Proof.
  split.
  - apply escapeHtml_safe.
  - rewrite ValidationFacts.sanitizeText_flat_map.
    apply containsAny_flat_map, displayEntity_safe.
Qed.

Lemma entityOf_nonempty x : entityOf (str "&#039;") x <> [].
Proof.
  unfold entityOf.
  repeat match goal with
         | |- context [(x =? ?n)%N] => destruct (x =? n)%N
         end; discriminate.
Qed.

Lemma entityOf_step x y r1 r2 :
  entityOf (str "&#039;") x ++ r1 = entityOf (str "&#039;") y ++ r2 ->
  x = y /\ r1 = r2.
Proof.
  unfold entityOf. intros H.
  repeat match type of H with
         | context [(x =? ?n)%N] =>
             destruct (N.eqb_spec x n); [subst x; cbn in H|]
         end;
    repeat match type of H with
           | context [(y =? ?n)%N] =>
               destruct (N.eqb_spec y n); [subst y; cbn in H|]
           end;
    cbn in H; split; congruence.
Qed.

(** X10.  [escapeHtml] loses nothing: two texts with the same escaped form
    are the same text. *)
Theorem escapeHtml_injective (a b : jsstring) :
  escapeHtml a = escapeHtml b -> a = b.
Proof.
  rewrite !ValidationFacts.escapeHtml_flat_map.
  revert b. induction a as [|x a IH]; intros [|y b] H; cbn [flat_map] in H.
  - reflexivity.
  - symmetry in H. apply app_eq_nil in H as [H _].
    now apply entityOf_nonempty in H.
  - apply app_eq_nil in H as [H _]. now apply entityOf_nonempty in H.
  - apply entityOf_step in H as [-> H]. f_equal. now apply IH.
Qed.

Lemma escapeHtml_injective_witness :
  escapeHtml (str "a<b") = str "a&lt;b"
  /\ forall b, escapeHtml b = str "a&lt;b" -> b = str "a<b".
Proof.
  split; [reflexivity|].
  intros b H. symmetry. apply escapeHtml_injective.
  rewrite H. reflexivity.
Defined.

(** X11.  [sanitizeText] does not tell a raw less-than sign from the entity
    that stands for it: inside any text, the sign and the five characters
    of its entity have the same sanitized form, so [sanitizeText] is not
    injective and its result cannot be decoded. *)
Theorem sanitizeText_confuses_entities (pre post : jsstring) :
  sanitizeText (pre ++ str "<" ++ post)
  = sanitizeText (pre ++ str "&lt;" ++ post)
  /\ pre ++ str "<" ++ post <> pre ++ str "&lt;" ++ post.
Proof.
  split.
  - rewrite !ValidationFacts.sanitizeText_flat_map, !flat_map_app.
    reflexivity.
  - intros H. apply app_inv_head in H. discriminate H.
Qed.

End EscapingFacts.

(* ===================================================================== *)
(** * Properties of [stripHtml] *)
(* ===================================================================== *)

Module MarkupFacts.
Import RegExp Markup Scanners2.

Lemma matchK_star (A : Type) ic ml r c (k : cursor -> option A) :
  matchK ic ml (Star r) c k = starLoop ic ml r k (length (snd c)) c.
Proof. reflexivity. Qed.

Lemma matchK_seq (A : Type) ic ml r1 r2 c (k : cursor -> option A) :
  matchK ic ml (Seq r1 r2) c k
  = matchK ic ml r1 c (fun c' => matchK ic ml r2 c' k).
Proof. reflexivity. Qed.

Lemma matchK_chr (A : Type) ic ml x c (k : cursor -> option A) :
  matchK ic ml (Chr x) c k
  = match snd c with
    | y :: rest => if sameChar ic x y then k (y :: fst c, rest) else None
    | [] => None
    end.
Proof. reflexivity. Qed.

Lemma starLoop_S (A : Type) ic ml r (k : cursor -> option A) n c :
  starLoop ic ml r k (S n) c
  = match matchK ic ml r c (fun c' =>
            if length (snd c') <? length (snd c)
            then starLoop ic ml r k n c' else None) with
    | Some a => Some a
    | None => k c
    end.
Proof. reflexivity. Qed.

Lemma starLoop_untilGt n : forall before after,
  length after <= n ->
  starLoop false false (noneOf [gt]) closing n (before, after)
  = untilGt before after.
Proof.
  induction n as [|n IH]; intros before after Hlen.
  - destruct after; [reflexivity|cbn in Hlen; lia].
  - rewrite starLoop_S. destruct after as [|c rest].
    + reflexivity.
    + cbn [matchK noneOf snd fst existsb untilGt].
      assert (Hlt : (length rest <? length (c :: rest)) = true)
        by (apply Nat.ltb_lt; cbn; lia).
      rewrite Hlt, IH by (cbn in Hlen; lia).
      rewrite orb_false_r, (N.eqb_sym c gt).
      unfold closing. cbn [matchK snd fst]. unfold sameChar.
      destruct (gt =? c)%N; cbn [negb].
      * reflexivity.
      * destruct (untilGt (c :: before) rest); reflexivity.
Qed.

Lemma matchAt_tagPattern g before after :
  matchAt (RegExp.mk (source tagPattern) g false false) (before, after)
  = match after with
    | c :: rest => if (lt =? c)%N then untilGt (c :: before) rest else None
    | [] => None
    end.
Proof.
  unfold matchAt, tagPattern.
  cbn [source ignoreCase multiline seqs].
  rewrite matchK_seq, matchK_chr. cbn [snd fst].
  destruct after as [|c rest]; [reflexivity|].
  unfold sameChar. destruct (lt =? c)%N; [|reflexivity].
  rewrite matchK_seq, matchK_star. cbn [snd].
  change (fun c' : cursor => matchK false false (Chr gt) c' (fun e => Some e))
    with closing.
  apply starLoop_untilGt. reflexivity.
Qed.

Lemma untilGt_hasGt s : forall before,
  match untilGt before s with Some _ => true | None => false end = hasGt s.
Proof.
  unfold hasGt.
  induction s as [|c rest IH]; intros before; [reflexivity|].
  cbn [untilGt existsb]. destruct (gt =? c)%N; [reflexivity|]. apply IH.
Qed.

Lemma untilGt_rest s : forall before e,
  untilGt before s = Some e ->
  length (snd e) < length s /\ stripScan true s = stripScan false (snd e).
Proof.
  induction s as [|c rest IH]; intros before e H; [discriminate|].
  cbn [untilGt] in H. cbn [stripScan length].
  destruct (gt =? c)%N.
  - injection H as <-. cbn [snd]. split; [lia|reflexivity].
  - destruct (IH _ _ H) as [Hlen Hscan]. split; [lia|exact Hscan].
Qed.

Lemma replaceFrom_stripScan fuel : forall before after,
  length after < fuel ->
  replaceFrom fuel tagPattern [] before after = stripScan false after.
Proof.
  induction fuel as [|fuel IH]; intros before after Hlen; [lia|].
  cbn [replaceFrom].
  change tagPattern with (RegExp.mk (source tagPattern) true false false) at 1.
  rewrite matchAt_tagPattern.
  destruct after as [|c rest]; [reflexivity|].
  cbn [stripScan length] in *.
  destruct (lt =? c)%N; cbn [andb].
  - pose proof (untilGt_hasGt rest (c :: before)) as Hgt.
    destruct (untilGt (c :: before) rest) as [e|] eqn:E.
    + rewrite <- Hgt.
      destruct (untilGt_rest _ _ E) as [Hshort Hscan].
      assert (Hlt : (length (snd e) <? S (length rest)) = true)
        by (apply Nat.ltb_lt; lia).
      rewrite Hlt, Hscan. cbn [app]. apply IH. lia.
    + rewrite <- Hgt. f_equal. apply IH. lia.
  - f_equal. apply IH. lia.
Qed.

Lemma stripHtml_stripScan html : stripHtml html = stripScan false html.
Proof. unfold stripHtml, RegExp.replace. apply replaceFrom_stripScan. lia. Qed.

Lemma stripScan_keeps p s : forall inTag,
  existsb p (stripScan inTag s) = true -> existsb p s = true.
Proof.
  induction s as [|c rest IH]; intros inTag H; [exact H|].
  cbn [stripScan] in H. cbn [existsb].
  destruct inTag.
  - destruct (gt =? c)%N; apply IH in H; rewrite H; apply orb_true_r.
  - destruct ((lt =? c)%N && hasGt rest).
    + apply IH in H. rewrite H. apply orb_true_r.
    + cbn [existsb] in H. apply orb_true_iff in H as [H|H].
      * now rewrite H.
      * apply IH in H. rewrite H. apply orb_true_r.
Qed.

Lemma stripScan_no_tag s : forall inTag,
  hasTag (stripScan inTag s) = false.
Proof.
  induction s as [|c rest IH]; intros inTag; [reflexivity|].
  cbn [stripScan]. destruct inTag.
  - destruct (gt =? c)%N; apply IH.
  - destruct ((lt =? c)%N && hasGt rest) eqn:E; [apply IH|].
    cbn [hasTag]. rewrite IH, orb_false_r.
    destruct (lt =? c)%N eqn:L; [|reflexivity].
    try rewrite L in E. cbn [andb] in *.
    destruct (hasGt (stripScan false rest)) eqn:G; [|reflexivity].
    apply stripScan_keeps in G. unfold hasGt in E.
    exact (eq_trans (eq_sym G) E).
Qed.

Lemma stripScan_unchanged s :
  hasTag s = false -> stripScan false s = s.
Proof.
  induction s as [|c rest IH]; intros H; [reflexivity|].
  cbn [hasTag] in H. apply orb_false_iff in H as [Hc Hrest].
  cbn [stripScan]. rewrite Hc. f_equal. now apply IH.
Qed.



Lemma hasTag_split s :
  hasTag s = true <->
  exists pre inside post, s = pre ++ lt :: inside ++ gt :: post.
Proof.
  induction s as [|c rest IH].
  - split; [discriminate|]. intros (pre & i & post & H).
    destruct pre; discriminate.
  - cbn [hasTag]. rewrite orb_true_iff, andb_true_iff, IH, N.eqb_eq. split.
    + intros [[<- Hgt]|(pre & i & post & ->)].
      * unfold hasGt in Hgt. apply existsb_exists in Hgt as (x & Hin & E).
        apply N.eqb_eq in E. subst x.
        apply in_split in Hin as (i & post & ->). now exists [], i, post.
      * now exists (c :: pre), i, post.
    + intros (pre & i & post & H). destruct pre as [|x pre].
      * injection H as -> ->. left. split; [reflexivity|].
        unfold hasGt. apply existsb_exists. exists gt.
        split; [|apply N.eqb_refl]. apply in_or_app. right. now left.
      * injection H as -> ->. right. now exists pre, i, post.
Qed.

(** X12.  Nothing that [stripHtml] returns holds a tag: no opening angle
    bracket of the result is followed, however far, by a closing one.
    Hence the pattern of [stripHtml] finds nothing in the result and a
    second pass changes nothing. *)
Theorem stripHtml_leaves_no_tag (html : jsstring) :
  (forall pre inside post,
      stripHtml html <> pre ++ lt :: inside ++ gt :: post)
  /\ stripHtml (stripHtml html) = stripHtml html.
Proof.
  pose proof (stripScan_no_tag html false) as Hclean.
  rewrite <- stripHtml_stripScan in Hclean. split.
  - intros pre i post E.
    assert (hasTag (stripHtml html) = true)
      by (apply hasTag_split; now exists pre, i, post).
    congruence.
  - rewrite (stripHtml_stripScan (stripHtml html)).
    now apply stripScan_unchanged.
Qed.


(** Tags go, an unclosed bracket stays, and a comparison written with
    both signs is taken for a tag. *)
Example stripHtml_examples :
  stripHtml (str "<p>Hello <b>world</b></p>") = str "Hello world"
  /\ stripHtml (str "a < b") = str "a < b"
  /\ stripHtml (str "1 < 2 and 3 > 2") = str "1  2".
Proof. repeat split; vm_compute; reflexivity. Qed.

End MarkupFacts.

(* ===================================================================== *)
(** * Further properties of the context service *)
(* ===================================================================== *)

Module SessionFacts.
Import Constants Number ContextService Session.
Local Open Scope Z_scope.

Lemma nested_div ms :
  ms / 1000 / 60 = ms / 60000
  /\ ms / 1000 / 60 / 60 = ms / 3600000
  /\ ms / 1000 / 60 / 60 / 24 = ms / 86400000.
Proof. rewrite !Z.div_div by lia. repeat split. Qed.

Ltac by_division :=
  try reflexivity;
  try (exfalso; Z.to_euclidean_division_equations; lia);
  try (Z.to_euclidean_division_equations; lia).

(** X14.  For a duration that is not negative, [formatDuration] shows the
    two largest units that apply, each rounded down: seconds alone below
    a minute, minutes alone below an hour, hours and minutes below a day,
    days and hours from a day on; the minutes shown beside hours are below
    60 and the hours shown beside days are below 24. *)
Theorem formatDuration_units (ms : Z) :
  0 <= ms ->
  (ms < 60000 ->
   formatDuration ms = showZ (ms / 1000) ++ str "s" /\ 0 <= ms / 1000 < 60)
  /\ (60000 <= ms < 3600000 ->
      formatDuration ms = showZ (ms / 60000) ++ str "m"
      /\ 1 <= ms / 60000 < 60)
  /\ (3600000 <= ms < 86400000 ->
      formatDuration ms
      = showZ (ms / 3600000) ++ str "h " ++ showZ (ms / 60000 mod 60)
        ++ str "m"
      /\ 1 <= ms / 3600000 < 24 /\ 0 <= ms / 60000 mod 60 < 60)
  /\ (86400000 <= ms ->
      formatDuration ms
      = showZ (ms / 86400000) ++ str "d " ++ showZ (ms / 3600000 mod 24)
        ++ str "h"
      /\ 1 <= ms / 86400000 /\ 0 <= ms / 3600000 mod 24 < 24).
Proof.
  intros Hms. unfold formatDuration, Math_floor_div, remainder.
  destruct (nested_div ms) as (Hm & Hh & Hd). rewrite Hd, Hh, Hm.
  assert (Hrm : Z.rem (ms / 60000) 60 = ms / 60000 mod 60).
  { apply Z.rem_mod_nonneg; [apply Z.div_pos|]; lia. }
  assert (Hrh : Z.rem (ms / 3600000) 24 = ms / 3600000 mod 24).
  { apply Z.rem_mod_nonneg; [apply Z.div_pos|]; lia. }
  rewrite Hrm, Hrh.
  refine (conj _ (conj _ (conj _ _))); intros Hrange;
    (split; [|try split]);
    repeat match goal with
           | |- context [(0 <? ?x)] => destruct (Z.ltb_spec 0 x)
           end;
    by_division.
Qed.

Lemma formatDuration_units_witness :
  formatDuration 45000 = str "45s"
  /\ formatDuration 125000 = str "2m"
  /\ formatDuration 9000000 = str "2h 30m"
  /\ formatDuration 180000000 = str "2d 2h".
Proof.
  destruct (@formatDuration_units 45000 ltac:(lia)) as (Hs & _).
  destruct (@formatDuration_units 125000 ltac:(lia)) as (_ & Hm & _).
  destruct (@formatDuration_units 9000000 ltac:(lia)) as (_ & _ & Hh & _).
  destruct (@formatDuration_units 180000000 ltac:(lia)) as (_ & _ & _ & Hd).
  split; [rewrite (proj1 (Hs ltac:(lia))); reflexivity|].
  split; [rewrite (proj1 (Hm ltac:(lia))); reflexivity|].
  split; [rewrite (proj1 (Hh ltac:(lia))); reflexivity|].
  rewrite (proj1 (Hd ltac:(lia))); reflexivity.
Defined.

(** X15.  [formatTimeAgo] answers [Just now] for every time stamp less
    than a minute old, a time stamp in the future included; beyond that it
    shows the age in whole minutes below an hour, in whole hours below a
    day, and in whole days from a day on. *)
Theorem formatTimeAgo_units (now timestamp : Z) :
  let diff := now - timestamp in
  (diff < 60000 -> formatTimeAgo now timestamp = str "Just now")
  /\ (60000 <= diff < 3600000 ->
      formatTimeAgo now timestamp = showZ (diff / 60000) ++ str "m ago")
  /\ (3600000 <= diff < 86400000 ->
      formatTimeAgo now timestamp = showZ (diff / 3600000) ++ str "h ago")
  /\ (86400000 <= diff ->
      formatTimeAgo now timestamp = showZ (diff / 86400000) ++ str "d ago").
Proof.
  intros diff. unfold formatTimeAgo, Math_floor_div. fold diff.
  assert (Hh : diff / 60000 / 60 = diff / 3600000)
    by (rewrite Z.div_div by lia; reflexivity).
  assert (Hd : diff / 60000 / 60 / 24 = diff / 86400000)
    by (rewrite !Z.div_div by lia; reflexivity).
  rewrite Hd, Hh.
  refine (conj _ (conj _ (conj _ _))); intros Hrange;
    repeat match goal with
           | |- context [(?x <? ?y)] => destruct (Z.ltb_spec x y)
           end;
    by_division.
Qed.

Lemma formatTimeAgo_units_witness :
  formatTimeAgo 1000 5000 = str "Just now"
  /\ formatTimeAgo 7200000 0 = str "2h ago".
Proof.
  destruct (formatTimeAgo_units 1000 5000) as (Hnow & _).
  destruct (formatTimeAgo_units 7200000 0) as (_ & _ & Hh & _).
  split; [apply Hnow; lia|].
  rewrite Hh by (cbn; lia). reflexivity.
Defined.

(** X16.  In every state that a service reaches from its creation through
    increments and resets, under a clock that never runs backwards, both
    counters are non-negative, and at any later reading of the clock the
    time since the last refresh is non-negative and at most the duration
    of the session. *)
Theorem session_invariant (t now : Z) (s : State) :
  reachable t s -> t <= now ->
  0 <= contextExchangeCount s
  /\ 0 <= filesProcessed s
  /\ 0 <= result (getTimeSinceRefresh now) s
       <= result (getSessionDuration now) s.
Proof.
  intros Hreach Hnow.
  assert (Hinv : 0 <= contextExchangeCount s /\ 0 <= filesProcessed s
                 /\ sessionStartTime s <= lastContextRefresh s <= t).
  { clear Hnow now.
    induction Hreach as [n1 n2 H| t s _ IH | t s _ IH | t n s _ IH H
                        | t n1 n2 s _ IH H1 H2].
    - cbn. lia.
    - destruct s; cbn in *. lia.
    - destruct s; cbn in *. lia.
    - destruct s; cbn in *. lia.
    - destruct s; cbn in *. lia. }
  destruct s; cbn in *. lia.
Qed.

Lemma session_invariant_witness :
  let s := after (resetExchangeCount 2000)
             (after incrementExchangeCount (fresh 1000 1001)) in
  reachable 2000 s
  /\ 0 <= result (getTimeSinceRefresh 2500) s
       <= result (getSessionDuration 2500) s.
Proof.
  intros s.
  assert (Hreach : reachable 2000 s).
  { apply reach_resetExchangeCount with (t := 1001); [|lia].
    apply reach_incrementExchangeCount, reach_fresh. lia. }
  split; [exact Hreach|].
  exact (proj2 (proj2 (session_invariant (now := 2500) Hreach ltac:(lia)))).
Defined.

Lemma after_bind (A B : Type) (m : Method A) (k : A -> Method B) s :
  after (bind m k) s = after (k (result m s)) (after m s).
Proof.
  unfold after, result, bind.
  destruct (m s) as [[a s1] l1]. cbn [fst snd].
  destruct (k a s1) as [[b s2] l2]. reflexivity.
Qed.

Lemma times_incrementExchangeCount n : forall s,
  after (times n incrementExchangeCount) s
  = {| contextExchangeCount := contextExchangeCount s + Z.of_nat n;
       sessionStartTime := sessionStartTime s;
       lastContextRefresh := lastContextRefresh s;
       filesProcessed := filesProcessed s |}.
Proof.
  induction n as [|n IH]; intros s.
  - destruct s; cbn. now rewrite Z.add_0_r.
  - assert (Hstep : after (times (S n) incrementExchangeCount) s
                    = after (times n incrementExchangeCount)
                        (after incrementExchangeCount s)).
    { cbn [times]. apply after_bind. }
    rewrite Hstep, IH. destruct s; cbn [after incrementExchangeCount
      contextExchangeCount sessionStartTime lastContextRefresh filesProcessed].
    cbn -[Z.add Z.of_nat]. f_equal. lia.
Qed.

(** X17.  After [resetExchangeCount] and then [n] calls of
    [incrementExchangeCount] the exchange count is [n], the last refresh
    is the time of the reset, and the two other fields are as before.
    With the default threshold the status is then green below 7
    exchanges, yellow from 7 to 9, red from 10 on, and
    [shouldRefreshContext] answers true from 10 on. *)
Theorem reset_then_exchanges (s : State) (now : Z) (n : nat) :
  let s' := after (times n incrementExchangeCount)
              (after (resetExchangeCount now) s) in
  let config := {| contextRefreshThreshold := None |} in
  contextExchangeCount s' = Z.of_nat n
  /\ lastContextRefresh s' = now
  /\ sessionStartTime s' = sessionStartTime s
  /\ filesProcessed s' = filesProcessed s
  /\ status (result (getContextHealth config) s')
     = (if 10 <=? Z.of_nat n then red
        else if 7 <=? Z.of_nat n then yellow else green)
  /\ result (shouldRefreshContext config) s' = (10 <=? Z.of_nat n).
Proof.
  intros s' config. subst s'.
  rewrite times_incrementExchangeCount.
  rewrite ContextFacts.status_of_getContextHealth.
  destruct s; cbn [contextExchangeCount sessionStartTime lastContextRefresh
                     filesProcessed after resetExchangeCount].
  repeat split.
Qed.

End SessionFacts.

(* ===================================================================== *)
(** * What the language detector returns *)
(* ===================================================================== *)

Module DetectionCharacterisation.
Import RegExp Constants Number FormattingService Reference.

Lemma detect_In entries code d :
  In d (detect entries code) <->
  exists lang pattern,
    In (lang, pattern) entries
    /\ RegExp.test pattern code = true
    /\ d = {| language := Some lang;
              confidence := patternConfidence pattern code |}.
Proof.
  induction entries as [|[lang pattern] rest IH]; cbn [detect].
  - split; [contradiction|]. intros (l & p & [] & _).
  - destruct (RegExp.test pattern code) eqn:Hfound.
    + cbn [In]. rewrite IH. split.
      * intros [<-|(l & p & Hin & Ht & ->)].
        -- exists lang, pattern. repeat split; [now left|exact Hfound].
        -- exists l, p. repeat split; [now right|exact Ht].
      * intros (l & p & [[= <- <-]|Hin] & Ht & ->); [now left|].
        right. now exists l, p.
    + rewrite IH. split.
      * intros (l & p & Hin & Ht & ->). exists l, p.
        repeat split; [now right|exact Ht].
      * intros (l & p & [[= <- <-]|Hin] & Ht & ->); [congruence|].
        now exists l, p.
Qed.

Lemma shell_entry : In ("shell"%string, shell) LANGUAGE_PATTERNS.
Proof. unfold LANGUAGE_PATTERNS. cbn [In]. do 15 right. left. reflexivity. Qed.

Lemma shell_unique pattern :
  In ("shell"%string, pattern) LANGUAGE_PATTERNS -> pattern = shell.
Proof.
  unfold LANGUAGE_PATTERNS. cbn [In]. intros H.
  repeat (destruct H as [H|H]; [try discriminate H|]);
    [injection H as <-; reflexivity|contradiction].
Qed.

Lemma candidates_are_low_or_shell :
  Forall (fun d => d = shellDetection
                   \/ confidence d = mul (ofNat 1) lit_0_2)
    (map detectionOf LANGUAGE_PATTERNS).
Proof.
  unfold LANGUAGE_PATTERNS. cbn [map].
  repeat (constructor; [first [right; reflexivity | left; reflexivity]|]).
  constructor.
Qed.

Lemma sortDetections_head l :
  (forall d, In d l ->
     d = shellDetection \/ confidence d = mul (ofNat 1) lit_0_2) ->
  In shellDetection l ->
  exists others, sortDetections l = shellDetection :: others.
Proof.
  induction l as [|x l IH]; intros Hall Hin; [contradiction|].
  cbn [sortDetections fold_right].
  fold (sortDetections l).
  assert (Hall' : forall d, In d l ->
            d = shellDetection \/ confidence d = mul (ofNat 1) lit_0_2)
    by (intros d Hd; apply Hall; now right).
  destruct (Hall x (or_introl eq_refl)) as [->|Hx].
  - destruct (sortDetections l) as [|y ys] eqn:Hs; [now exists []|].
    cbn [insertSorted].
    assert (Hy : In y l)
      by (apply DetectionFacts.sortDetections_In; rewrite Hs; now left).
    unfold compareFn.
    destruct (Hall' y Hy) as [->|Hc].
    + exists (shellDetection :: ys). reflexivity.
    + rewrite Hc. exists (y :: ys). reflexivity.
  - destruct Hin as [Hin|Hin].
    + subst x. vm_compute in Hx. discriminate Hx.
    + destruct (IH Hall' Hin) as [others ->].
      cbn [insertSorted]. unfold compareFn. rewrite Hx.
      exists (insertSorted x others). reflexivity.
Qed.

Lemma detectLanguage_from_candidates code d :
  detectLanguage code = d -> d <> noDetection ->
  In d (detect LANGUAGE_PATTERNS code).
Proof.
  unfold detectLanguage.
  destruct (falsy code || (length (trim code) =? 0)); [congruence|].
  destruct (sortDetections (detect LANGUAGE_PATTERNS code))
    as [|best others] eqn:Hs; [congruence|].
  destruct (ltb lit_0_3 (confidence best)); [|congruence].
  intros <- _. apply DetectionFacts.sortDetections_In.
  rewrite Hs. now left.
Qed.

(** X18.  [detectLanguage] returns the language shell, with confidence
    0.4, exactly when the code is not blank and the shell pattern is found
    in it; for every other code it returns confidence 0 and no language,
    whatever the other fifteen patterns find. *)
Theorem detectLanguage_characterised (code : jsstring) :
  detectLanguage code
  = if negb (length (trim code) =? 0) && RegExp.test shell code
    then shellDetection else noDetection.
Proof.
  destruct (length (trim code) =? 0) eqn:Hblank; cbn [negb andb].
  - unfold detectLanguage. rewrite Hblank, orb_true_r. reflexivity.
  - destruct (RegExp.test shell code) eqn:Hshell.
    + assert (Hin : In shellDetection (detect LANGUAGE_PATTERNS code)).
      { apply detect_In. exists "shell"%string, shell.
        split; [exact shell_entry|]. split; [exact Hshell|].
        rewrite (DetectionFacts.patternConfidence_found "shell" shell code
                   eq_refl Hshell).
        reflexivity. }
      assert (Hall : forall d, In d (detect LANGUAGE_PATTERNS code) ->
                d = shellDetection
                \/ confidence d = mul (ofNat 1) lit_0_2).
      { intros d Hd.
        pose proof candidates_are_low_or_shell as Hc.
        rewrite Forall_forall in Hc. apply Hc.
        apply DetectionFacts.detect_candidates with (code := code);
          [exact DetectionFacts.catalog_not_global|exact Hd]. }
      destruct (sortDetections_head _ Hall Hin) as [others Hs].
      unfold detectLanguage. rewrite Hs.
      assert (Hne : falsy code = false).
      { destruct code; [discriminate Hblank|reflexivity]. }
      rewrite Hne, Hblank. reflexivity.
    + destruct (DetectionFacts.detectLanguage_only_shell code) as [H|H];
        [exact H|].
      exfalso.
      apply detectLanguage_from_candidates in H; [|discriminate].
      apply detect_In in H as (lang & pattern & Hentry & Hfound & Heq).
      injection Heq as Hlang _. subst lang.
      apply shell_unique in Hentry. subst pattern. congruence.
Qed.

(** A script line is taken for shell although it is JavaScript as well;
    JavaScript alone is not detected. *)
Example detectLanguage_characterised_examples :
  detectLanguage (str "const greet = () => { echo ('hi') }") = shellDetection
  /\ detectLanguage (str "function f() { return 1; }") = noDetection.
Proof. split; vm_compute; reflexivity. Qed.

End DetectionCharacterisation.

(* ===================================================================== *)
(** * Properties of the highlighter wrapper *)
(* ===================================================================== *)

Module HighlightFacts.
Import Errors FormattingService Scanners2.

(** X19.  [highlightCode] never fails.  It returns what the highlighter
    gives: the one for the language when the language is not empty and
    known, the automatic one otherwise; when a call of the highlighting
    library throws, it returns [escapeHtml(code)] instead, a text without
    angle brackets and quotes. *)
Theorem highlightCode_falls_back (rt : Runtime) (code lang : jsstring) :
  (exists r, highlightCode rt code lang = Ok r)
  /\ (lang <> [] -> hljs_getLanguage rt lang = Ok true ->
      highlightCode rt code lang
      = match hljs_highlight rt code lang with
        | Ok v => Ok v
        | Throw _ => Ok (escapeHtml code)
        end)
  /\ (lang = [] \/ hljs_getLanguage rt lang = Ok false ->
      highlightCode rt code lang
      = match hljs_highlightAuto rt code with
        | Ok v => Ok v
        | Throw _ => Ok (escapeHtml code)
        end)
  /\ (lang <> [] -> throws (hljs_getLanguage rt lang) = true ->
      highlightCode rt code lang = Ok (escapeHtml code))
  /\ containsAny [60; 62; 34; 39]%N (escapeHtml code) = false.
Proof.
  refine (conj (FormattingFacts.highlightCode_returns rt code lang) _).
  unfold highlightCode, try_catch, bind, ret.
  repeat split.
  - intros Hne Hknown. destruct lang; [contradiction|]. cbn [falsy].
    rewrite Hknown. reflexivity.
  - intros [->|Hunknown]; [reflexivity|].
    destruct lang; [reflexivity|]. cbn [falsy]. rewrite Hunknown.
    reflexivity.
  - intros Hne Hthrows. destruct lang; [contradiction|]. cbn [falsy].
    destruct (hljs_getLanguage rt (c :: lang)); [discriminate|reflexivity].
  - apply EscapingFacts.escapeHtml_safe.
Qed.

Lemma highlightCode_falls_back_witness :
  highlightCode
    {| marked_parse := fun s => Ok s;
       hljs_getLanguage := fun _ => Ok true;
       hljs_highlight := fun _ _ => Throw (LibraryError "Unknown language");
       hljs_highlightAuto := fun code => Ok code;
       replaceCodeFences := fun s => Ok s;
       replaceFunctionResults := fun s => Ok s;
       replaceCodeSnippets := fun s => Ok s;
       replaceRenderedBlocks := fun _ html => Ok html |}
    (str "a<b") (str "js")
  = Ok (str "a&lt;b").
Proof.
  match goal with |- highlightCode ?rt ?code ?lang = _ =>
    destruct (highlightCode_falls_back rt code lang) as (_ & Hknown & _)
  end.
  rewrite Hknown; [reflexivity|discriminate|reflexivity].
Defined.

End HighlightFacts.

(* ===================================================================== *)
(** * Properties of the extension manager *)
(* ===================================================================== *)

Module ManagerFacts.
Import Constants ContextService ExtensionManager.
Local Open Scope Z_scope.

(** X20.  What [saveState] writes, [loadPersistedState] reads back: a
    service of any state that loads the store left by [saveState] is in
    the state that was saved.  With no session record in the store the
    service keeps its state, and a manager without context writes
    nothing. *)
Theorem saved_session_is_restored (store : Memento) (saved current : State) :
  after (loadPersistedState (saveState true store saved)) current = saved
  /\ (memento_get store "sessionData" = None ->
      after (loadPersistedState store) current = current)
  /\ saveState false store saved = store.
Proof.
  repeat split.
  - destruct saved, current. reflexivity.
  - intros Hnone. unfold loadPersistedState. rewrite Hnone. reflexivity.
Qed.

(** Two toggles restore the flag. *)
Lemma toggle_twice (m : Manager) :
  enhancementActive (fst (toggleEnhancement (fst (toggleEnhancement m))))
  = enhancementActive m.
Proof.
  unfold toggleEnhancement.
  destruct (statusBarItem m), (enhancementActive m); reflexivity.
Qed.

Lemma toggle_step (m : Manager) (item : StatusBarItem) :
  statusBarItem m = Some item ->
  In (SetContext (str "fixAugment.enabled") (negb (enhancementActive m)))
     (snd (toggleEnhancement m))
  /\ option_map sb_text (statusBarItem (fst (toggleEnhancement m)))
     = Some (if negb (enhancementActive m) then ACTIVE else INACTIVE)
  /\ enhancementActive (fst (toggleEnhancement m))
     = negb (enhancementActive m).
Proof.
  unfold toggleEnhancement. intros ->.
  destruct (enhancementActive m); cbn; repeat split; now left.
Qed.

(** X21.  Once the status bar item exists, every toggle leaves its text in
    step with the flag: [ON] while the enhancement is active, [OFF] while
    it is not; the context key sent to the editor carries the new flag;
    after [n] toggles of a new manager the enhancement is active exactly
    when [n] is even. *)
Theorem toggle_keeps_status_bar_in_step (n : nat) :
  let toggle := fun m => fst (toggleEnhancement m) in
  let m := Nat.iter n toggle (createStatusBar newManager) in
  enhancementActive m = Nat.even n
  /\ option_map sb_text (statusBarItem m)
     = Some (if enhancementActive m then ACTIVE else INACTIVE)
  /\ In (SetContext (str "fixAugment.enabled")
           (negb (enhancementActive m)))
        (snd (toggleEnhancement m)).
Proof.
  intros toggle m. subst m.
  induction n as [|n (Hflag & Htext & _)].
  - repeat split. cbn. now left.
  - set (m := Nat.iter n toggle (createStatusBar newManager)) in *.
    change (Nat.iter (S n) toggle (createStatusBar newManager))
      with (toggle m).
    destruct (statusBarItem m) as [item|] eqn:Hitem; [|discriminate Htext].
    destruct (toggle_step m Hitem) as (_ & Htext' & Hflag').
    fold (toggle m) in Htext', Hflag'.
    assert (Heven : enhancementActive (toggle m) = Nat.even (S n)).
    { rewrite Hflag', Hflag, Nat.even_succ, Nat.negb_even. reflexivity. }
    split; [exact Heven|].
    split; [rewrite Htext', Hflag'; reflexivity|].
    destruct (statusBarItem (toggle m)) as [item'|] eqn:Hitem';
      [|discriminate Htext'].
    exact (proj1 (toggle_step (toggle m) Hitem')).
Qed.

(** A toggle that comes before the status bar item exists leaves the new
    item saying [ON] while the enhancement is off. *)
Example toggle_before_status_bar :
  let m := createStatusBar (fst (toggleEnhancement newManager)) in
  enhancementActive m = false
  /\ option_map sb_text (statusBarItem m) = Some ACTIVE.
Proof. split; reflexivity. Qed.

Lemma handle_ignored active config changes answer now :
  active = false \/ changes = []
  \/ (exists text rest, changes = text :: rest
                        /\ isAugmentOutput text = false) ->
  handleTextDocumentChange active config changes answer now = ret tt.
Proof.
  unfold handleTextDocumentChange.
  intros [->|[->|(text & rest & -> & Hno)]].
  - reflexivity.
  - now rewrite orb_true_r.
  - rewrite Hno. destruct (negb active || _); reflexivity.
Qed.

(** X22.  [handleTextDocumentChange] leaves the context service as it is
    when the enhancement is inactive, when the event carries no change, or
    when the text of the first change holds none of the markers of
    [isAugmentOutput]; later changes of the event are not looked at.
    When the enhancement is active and the first change holds a marker,
    the exchange count goes up by one and the other fields stay, unless
    the new count has reached the threshold and the user chooses the
    refresh: then the count is 0 and the time of the last refresh is the
    clock reading.  The start of the session and the count of files never
    change. *)
Theorem handleTextDocumentChange_effect (active : bool)
  (config : Configuration) (changes : list jsstring) (answer : Answer)
  (now : Z) (s : State) :
  let threshold :=
    config_get (contextRefreshThreshold config) CONTEXT_REFRESH_THRESHOLD in
  let s' := after (handleTextDocumentChange active config changes answer now) s in
  (active = false \/ changes = []
   \/ (exists text rest, changes = text :: rest
                         /\ isAugmentOutput text = false) -> s' = s)
  /\ (forall text rest other,
         after (handleTextDocumentChange active config (text :: rest)
                  answer now) s
         = after (handleTextDocumentChange active config (text :: other)
                    answer now) s)
  /\ (forall text rest,
         active = true -> changes = text :: rest ->
         isAugmentOutput text = true ->
         contextExchangeCount s + 1 < threshold \/ answer <> RefreshNow ->
         s' = {| contextExchangeCount := contextExchangeCount s + 1;
                 sessionStartTime := sessionStartTime s;
                 lastContextRefresh := lastContextRefresh s;
                 filesProcessed := filesProcessed s |})
  /\ (forall text rest,
         active = true -> changes = text :: rest ->
         isAugmentOutput text = true ->
         threshold <= contextExchangeCount s + 1 -> answer = RefreshNow ->
         s' = {| contextExchangeCount := 0;
                 sessionStartTime := sessionStartTime s;
                 lastContextRefresh := now;
                 filesProcessed := filesProcessed s |})
  /\ sessionStartTime s' = sessionStartTime s
  /\ filesProcessed s' = filesProcessed s.
Proof.
  intros threshold s'. subst s'.
  refine (conj _ (conj _ (conj _ (conj _ _)))).
  - intros H. rewrite (handle_ignored config answer now H).
    destruct s; reflexivity.
  - intros text rest other. unfold handleTextDocumentChange.
    destruct active; reflexivity.
  - intros text rest -> -> Hmarker Hcase.
    unfold handleTextDocumentChange. rewrite Hmarker.
    destruct s as [count start refresh files].
    unfold after, bind, incrementExchangeCount, shouldRefreshContext,
      showContextRefreshSuggestion.
    cbn -[Z.add Z.leb showZ str]. fold threshold.
    cbn [contextExchangeCount] in Hcase.
    destruct (Z.leb_spec threshold (count + 1)) as [Hreached|Hbelow];
      [|reflexivity].
    destruct Hcase as [Hlt|Hanswer]; [lia|].
    destruct answer; try reflexivity. contradiction.
  - intros text rest -> -> Hmarker Hreached ->.
    unfold handleTextDocumentChange. rewrite Hmarker.
    destruct s as [count start refresh files].
    unfold after, bind, incrementExchangeCount, shouldRefreshContext,
      showContextRefreshSuggestion.
    cbn -[Z.add Z.leb showZ str]. fold threshold.
    cbn [contextExchangeCount] in Hreached.
    destruct (Z.leb_spec threshold (count + 1)) as [_|Hbelow]; [|lia].
    reflexivity.
  - unfold handleTextDocumentChange.
    destruct (negb active || (length changes =? 0)%nat);
      [destruct s; cbn; auto|].
    destruct changes as [|text rest]; [destruct s; cbn; auto|].
    destruct (isAugmentOutput text); [|destruct s; cbn; auto].
    destruct s as [count start refresh files].
    unfold after, bind, incrementExchangeCount, shouldRefreshContext,
      showContextRefreshSuggestion. cbn -[Z.add Z.leb showZ str].
    destruct (config_get (contextRefreshThreshold config)
                CONTEXT_REFRESH_THRESHOLD <=? count + 1);
      [|cbn; auto].
    destruct answer; cbn -[Z.add]; auto.
Qed.

(** With the default threshold of 10: the eighth exchange is counted; the
    tenth, answered with the refresh, sets the count to 0 and the time of
    the last refresh to the clock reading; answered with a reminder, it is
    counted. *)
Lemma handleTextDocumentChange_effect_witness :
  let config := {| contextRefreshThreshold := None |} in
  let at_count := fun n =>
    {| contextExchangeCount := n; sessionStartTime := 1000;
       lastContextRefresh := 1000; filesProcessed := 3 |} in
  after (handleTextDocumentChange true config [str "Agent: done"]
           RefreshNow 5000) (at_count 7) = at_count 8
  /\ after (handleTextDocumentChange true config [str "Agent: done"]
              RefreshNow 5000) (at_count 9)
     = {| contextExchangeCount := 0; sessionStartTime := 1000;
          lastContextRefresh := 5000; filesProcessed := 3 |}
  /\ after (handleTextDocumentChange true config [str "Agent: done"]
              RemindLater 5000) (at_count 9) = at_count 10
  /\ after (handleTextDocumentChange true config [str "typed by hand"]
              RefreshNow 5000) (at_count 9) = at_count 9.
Proof.
  intros config at_count.
  destruct (handleTextDocumentChange_effect true config
              [str "Agent: done"] RefreshNow 5000 (at_count 7))
    as (_ & _ & Hcounted & _).
  destruct (handleTextDocumentChange_effect true config
              [str "Agent: done"] RefreshNow 5000 (at_count 9))
    as (_ & _ & _ & Hreset & _).
  destruct (handleTextDocumentChange_effect true config
              [str "Agent: done"] RemindLater 5000 (at_count 9))
    as (_ & _ & Hlater & _).
  destruct (handleTextDocumentChange_effect true config
              [str "typed by hand"] RefreshNow 5000 (at_count 9))
    as (Hignored & _).
  split; [apply (Hcounted (str "Agent: done") []);
          [reflexivity|reflexivity|reflexivity|left; reflexivity]|].
  split; [apply (Hreset (str "Agent: done") []);
          [reflexivity|reflexivity|reflexivity|discriminate|reflexivity]|].
  split; [apply (Hlater (str "Agent: done") []);
          [reflexivity|reflexivity|reflexivity|right; discriminate]|].
  apply Hignored. right. right.
  exists (str "typed by hand"), []. split; reflexivity.
Defined.

(** X23.  Under a positive threshold, a user who answers every warning
    with the refresh never lets the exchange count reach the threshold:
    if the count is below it before a document change, it is below it
    after. *)
Theorem refresh_keeps_count_below_threshold (active : bool)
  (config : Configuration) (changes : list jsstring) (now : Z) (s : State) :
  let threshold :=
    config_get (contextRefreshThreshold config) CONTEXT_REFRESH_THRESHOLD in
  let s' := after (handleTextDocumentChange active config changes
                     RefreshNow now) s in
  0 < threshold ->
  contextExchangeCount s < threshold ->
  contextExchangeCount s' < threshold
  /\ result (shouldRefreshContext config) s' = false.
Proof.
  intros threshold s' Hpos Hbelow.
  assert (Hcount : contextExchangeCount s' < threshold).
  { subst s'. unfold handleTextDocumentChange.
    destruct (negb active || (length changes =? 0)%nat);
      [destruct s; exact Hbelow|].
    destruct changes as [|text rest]; [destruct s; exact Hbelow|].
    destruct (isAugmentOutput text); [|destruct s; exact Hbelow].
    destruct s as [count start refresh files].
    unfold after, bind, incrementExchangeCount, shouldRefreshContext,
      showContextRefreshSuggestion. cbn -[Z.add Z.leb showZ str].
    fold threshold. cbn [contextExchangeCount] in Hbelow.
    destruct (Z.leb_spec threshold (count + 1)); cbn -[Z.add]; lia. }
  split; [exact Hcount|].
  unfold result, shouldRefreshContext, bind, get, ret. cbn [fst snd].
  fold threshold. apply Z.leb_gt. exact Hcount.
Qed.

Lemma refresh_keeps_count_below_threshold_witness :
  let config := {| contextRefreshThreshold := None |} in
  let s := {| contextExchangeCount := 9; sessionStartTime := 1000;
              lastContextRefresh := 1000; filesProcessed := 0 |} in
  let s' := after (handleTextDocumentChange true config
                     [str "Agent: done"] RefreshNow 5000) s in
  contextExchangeCount s' = 0
  /\ contextExchangeCount s' < 10
  /\ result (shouldRefreshContext config) s' = false.
Proof.
  intros config s s'.
  destruct (@refresh_keeps_count_below_threshold true config
              [str "Agent: done"] 5000 s ltac:(reflexivity)
              ltac:(reflexivity)) as [Hlt Hno].
  split; [reflexivity|]. split; [exact Hlt|exact Hno].
Defined.

End ManagerFacts.

(* ===================================================================== *)
(** * Properties of the logger *)
(* ===================================================================== *)

Module LoggerFacts.
Import Logger.

(** X24.  Through [log], a message reaches the console exactly when its
    level is not [NONE] and is at least the level of the logger; it is
    written once, by the console method of its own level, as a line that
    names the level and the prefix of the logger.  A logger set to [NONE]
    writes nothing.  A child logger writes under the same condition as its
    parent did when the child was created, with the prefix of the parent,
    a colon and its own prefix.  A timer writes only when the level of the
    logger is [DEBUG]. *)
Theorem log_filters_by_level (lg : Logger.t) (timestamp message : jsstring)
  (level : LogLevel) :
  log lg timestamp level message
  = match methodOf level with
    | Some (method, name) =>
        if rank (logLevel lg) <=? rank level
        then [(method, formatMessage lg timestamp name message)]
        else []
    | None => []
    end
  /\ (logLevel lg = NONE -> log lg timestamp level message = [])
  /\ (forall childPrefix,
         prefix (createChild lg childPrefix)
         = prefix lg ++ str ":" ++ childPrefix
         /\ (log (createChild lg childPrefix) timestamp level message = []
             <-> log lg timestamp level message = []))
  /\ (forall label startTime now,
         startTimer lg label startTime timestamp now <> [] ->
         logLevel lg = DEBUG).
Proof.
  repeat split.
  - destruct level; reflexivity.
  - intros H. destruct level; cbn [log]; unfold debug, info, warn, error;
      try rewrite H; reflexivity.
  - destruct level, lg as [[] p]; cbn; intros H;
      try reflexivity; discriminate H.
  - destruct level, lg as [[] p]; cbn; intros H;
      try reflexivity; discriminate H.
  - intros label startTime now.
    unfold startTimer, performance, debug.
    destruct (logLevel lg); cbn; intros H; try reflexivity; contradiction.
Qed.

Lemma log_filters_by_level_witness :
  let lg := createChild (create None) (str "ContextService") in
  log lg (str "T") DEBUG (str "hidden") = []
  /\ log lg (str "T") WARN (str "shown")
     = [(console_warn, str "[T] [Fix Augment:ContextService] [WARN] shown")]
  /\ log (setLogLevel NONE lg) (str "T") ERROR (str "lost") = [].
Proof.
  intros lg.
  split; [reflexivity|]. split; [reflexivity|].
  exact (proj1 (proj2 (log_filters_by_level (setLogLevel NONE lg) (str "T")
                         (str "lost") ERROR)) eq_refl).
Defined.

End LoggerFacts.

(* ===================================================================== *)
(** * Complexity indicators and the cues of the advice *)
(* ===================================================================== *)

Module ComplexityFacts.
Import RegExp Constants Complexity Scanners2 Words.

Lemma forward_trans c1 c2 c3 : forward c1 c2 -> forward c2 c3 -> forward c1 c3.
Proof.
  induction 1 as [c|before y rest c _ IH]; intros H; [exact H|].
  apply forward_step, IH, H.
Qed.

Lemma lit_sound (A : Type) ml word : forall c (k : cursor -> option A) a,
  matchK true ml (lit word) c k = Some a ->
  prefixCI word (snd c) = true /\ exists c', forward c c' /\ k c' = Some a.
Proof.
  induction word as [|x word IH]; intros [before input] k a H.
  - split; [reflexivity|]. exists (before, input).
    split; [constructor|exact H].
  - assert (Hstep : matchK true ml (lit (x :: word)) (before, input) k
                    = matchK true ml (Chr x) (before, input)
                        (fun c' => matchK true ml (lit word) c' k))
      by (destruct word; reflexivity).
    rewrite Hstep in H. cbn [matchK snd fst] in H.
    destruct input as [|y input]; [discriminate H|].
    revert H. destruct (sameChar true x y) eqn:E; intros H;
      [|discriminate H].
    apply IH in H as [Hp (c' & Hf & Hk)].
    cbn [snd prefixCI] in *. rewrite E, Hp. split; [reflexivity|].
    exists c'. split; [now apply forward_step|exact Hk].
Qed.

Lemma lit_complete ml word : forall c,
  prefixCI word (snd c) = true ->
  exists e, matchK true ml (lit word) c (fun e => Some e) = Some e.
Proof.
  assert (Hgen : forall (k : cursor -> option cursor),
             (forall c, exists e, k c = Some e) ->
             forall c, prefixCI word (snd c) = true ->
                       exists e, matchK true ml (lit word) c k = Some e).
  { induction word as [|x word IH]; intros k Hk [before input] H.
    - apply Hk.
    - assert (Hstep : matchK true ml (lit (x :: word)) (before, input) k
                      = matchK true ml (Chr x) (before, input)
                          (fun c' => matchK true ml (lit word) c' k))
        by (destruct word; reflexivity).
      rewrite Hstep. cbn [matchK snd fst].
      destruct input as [|y input]; [discriminate H|].
      cbn [snd prefixCI] in H. apply andb_true_iff in H as [E Hp].
      rewrite E. now apply IH. }
  apply Hgen. intros c. now exists c.
Qed.

Lemma starLoop_class_sound (A : Type) ic ml p (k : cursor -> option A) n :
  forall c a,
    starLoop ic ml (Cls p) k n c = Some a ->
    exists c', forward c c' /\ k c' = Some a.
Proof.
  induction n as [|n IH]; intros [before input] a.
  - intros H. exists (before, input). split; [constructor|exact H].
  - rewrite MarkupFacts.starLoop_S. cbn [matchK snd fst].
    destruct input as [|y input];
      [intros H; exists (before, []); split; [constructor|exact H]|].
    destruct (p y).
    + destruct (length input <? length (y :: input)).
      * destruct (starLoop ic ml (Cls p) k n (y :: before, input))
          as [r|] eqn:E; intros H.
        -- injection H as <-. apply IH in E as (c' & Hf & Hk).
           exists c'. split; [now apply forward_step|exact Hk].
        -- exists (before, y :: input). split; [constructor|exact H].
      * intros H. exists (before, y :: input). split; [constructor|exact H].
    + intros H. exists (before, y :: input). split; [constructor|exact H].
Qed.

Lemma search_sound re after : forall before b e,
  search re before after = Some (b, e) ->
  forward (before, after) b /\ matchAt re b = Some e.
Proof.
  induction after as [|y rest IH]; intros before b e; cbn [search].
  - match goal with |- context [matchAt ?r ?c] =>
      destruct (matchAt r c) eqn:E end; intros H; [|discriminate H].
    injection H as <- <-. split; [constructor|exact E].
  - match goal with |- context [matchAt ?r ?c] =>
      destruct (matchAt r c) eqn:E end; intros H.
    + injection H as <- <-. split; [constructor|exact E].
    + apply IH in H as [Hf Hm]. split; [now apply forward_step|exact Hm].
Qed.

Lemma search_complete re c c' e :
  forward c c' -> matchAt re c' = Some e ->
  exists r, search re (fst c) (snd c) = Some r.
Proof.
  induction 1 as [[before after]|before y rest c' _ IH]; intros Hm.
  - cbn [fst snd]. destruct after; cbn [search]; rewrite Hm; eauto.
  - cbn [fst snd search] in *.
    match goal with |- context [matchAt ?r ?c] =>
      destruct (matchAt r c) end; [eauto|]. now apply IH.
Qed.

(** Where an indicator is found, its two words stand, the first at the
    start of the match and the second at or after it. *)
Lemma indicator_words a b text :
  RegExp.test (indicator a b) text = true ->
  exists c1 c2,
    forward ([], text) c1 /\ prefixCI (str a) (snd c1) = true
    /\ forward ([], text) c2 /\ prefixCI (str b) (snd c2) = true.
Proof.
  unfold RegExp.test.
  destruct (search (indicator a b) [] text) as [[c1 e]|] eqn:Hs;
    [intros _|discriminate].
  apply search_sound in Hs as [Hf Hm].
  unfold matchAt, indicator, flag_i in Hm.
  cbn [source ignoreCase multiline seqs] in Hm.
  rewrite MarkupFacts.matchK_seq in Hm.
  apply lit_sound in Hm as [Ha (c' & Hf' & Hm)].
  rewrite MarkupFacts.matchK_seq in Hm. unfold any0, dot in Hm.
  rewrite MarkupFacts.matchK_star in Hm.
  apply starLoop_class_sound in Hm as (c2 & Hf2 & Hm).
  apply lit_sound in Hm as [Hb _].
  exists c1, c2. split; [exact Hf|]. split; [exact Ha|].
  split; [|exact Hb].
  eapply forward_trans; [exact Hf|]. eapply forward_trans; eassumption.
Qed.

Lemma cue_found first second c text :
  forward ([], text) c ->
  prefixCI (str first) (snd c) = true
  \/ prefixCI (str second) (snd c) = true ->
  RegExp.test (flag_i (alts [RegExp.text first; RegExp.text second])) text
  = true.
Proof.
  intros Hf Hword.
  assert (Hm : exists e,
             matchAt (flag_i (alts [RegExp.text first; RegExp.text second]))
               c = Some e).
  { unfold matchAt, flag_i.
    cbn [source ignoreCase multiline alts matchK].
    destruct Hword as [H|H].
    - destruct (lit_complete false (str first) c H) as [e He].
      unfold RegExp.text. rewrite He. now exists e.
    - destruct (lit_complete false (str second) c H) as [e He].
      unfold RegExp.text. rewrite He.
      destruct (matchK true false (lit (str first)) c (fun e0 => Some e0));
        eauto. }
  destruct Hm as [e Hm].
  destruct (search_complete _ Hf Hm) as [r Hr].
  unfold RegExp.test. cbn [fst snd] in Hr. now rewrite Hr.
Qed.

(** X25.  The advice of [suggestTaskBreakdown] follows the wording that
    raised it: a text in which the indicator write...documentation is
    found gets the line on documentation right after the fixed part, and
    a text in which refactor...everything or migrate...all is found gets
    the line on refactoring. *)
Theorem breakdown_advice_follows_indicator (text s : jsstring) :
  suggestTaskBreakdown text = Some s ->
  (RegExp.test (indicator "write" "documentation") text = true ->
   exists rest,
     s = join [newline] (baseSuggestions ++ documentationLines ++ rest))
  /\ (RegExp.test (indicator "refactor" "everything") text = true
      \/ RegExp.test (indicator "migrate" "all") text = true ->
      exists before rest,
        s = join [newline]
              (baseSuggestions ++ before ++ refactoringLines ++ rest)).
Proof.
  unfold suggestTaskBreakdown.
  destruct (_ && _); [|discriminate]. intros [= <-].
  unfold generateBreakdownSuggestion.
  set (doc := RegExp.test
                (flag_i (alts [RegExp.text "documentation";
                               RegExp.text "docs"])) text).
  set (ref := RegExp.test
                (flag_i (alts [RegExp.text "refactor";
                               RegExp.text "migrate"])) text).
  set (tst := RegExp.test
                (flag_i (alts [RegExp.text "test";
                               RegExp.text "testing"])) text).
  split.
  - intros Hind.
    apply indicator_words in Hind as (_ & c2 & _ & _ & Hf & Hw).
    assert (Hdoc : doc = true)
      by exact (cue_found "documentation" "docs" Hf (or_introl Hw)).
    rewrite Hdoc.
    exists ((if ref then refactoringLines else [])
            ++ (if tst
                then [[]; str "For testing: Write tests for one component/function at a time"]
                else [])).
    destruct ref, tst; vm_compute; reflexivity.
  - intros Hind.
    assert (Href : ref = true).
    { destruct Hind as [Hind|Hind];
        apply indicator_words in Hind as (c1 & _ & Hf & Hw & _).
      - exact (cue_found "refactor" "migrate" Hf (or_introl Hw)).
      - exact (cue_found "refactor" "migrate" Hf (or_intror Hw)). }
    rewrite Href.
    exists (if doc then documentationLines else []).
    exists (if tst
            then [[]; str "For testing: Write tests for one component/function at a time"]
            else []).
    destruct doc, tst; vm_compute; reflexivity.
Qed.

(** Scenario C of the specification: the documentation request, repeated
    until it is longer than the complexity threshold. *)
Lemma breakdown_advice_follows_indicator_witness :
  let text :=
    concat (repeat (str "Write complete documentation for all modules with full examples. ") 40) in
  exists s rest,
    suggestTaskBreakdown text = Some s
    /\ s = join [newline] (baseSuggestions ++ documentationLines ++ rest).
Proof.
  intros text.
  assert (Hfires : suggestTaskBreakdown text
                   = Some (generateBreakdownSuggestion text))
    by (vm_compute; reflexivity).
  destruct (breakdown_advice_follows_indicator text Hfires) as [Hdoc _].
  destruct (Hdoc ltac:(vm_compute; reflexivity)) as [rest Hrest].
  exists (generateBreakdownSuggestion text), rest.
  split; [exact Hfires|exact Hrest].
Defined.

End ComplexityFacts.
